(** * tfsnippet.distributions.utils: validate_group_ndims and reduce_group_ndims

    A shallow embedding of [src/tfsnippet/distributions/utils.py].

    The two functions build a TensorFlow graph.  Graph construction is
    embedded as a state-and-exception monad over a [world] (the ambient
    default graph together with the trace of calls made to the
    caller-supplied callable); the tensors that construction returns are
    terms of the type [Tensor], and executing a graph ([session.run]) is the
    total function [run] over those terms. *)

From Stdlib Require Import ZArith QArith Qround List String Bool Lia.
From Stdlib Require Import DecimalString Permutation.
Import ListNotations.

Set Warnings "-register-all".

Local Open Scope string_scope.
Local Open Scope Z_scope.

(** ** Runtime values and tensors *)

(** Element types of a tensor (the [dtype] attribute). *)
Inductive dtype : Type :=
| DT_INT32
| DT_INT64
| DT_FLOAT32
| DT_FLOAT64
| DT_BOOL.

Definition is_integer (dt : dtype) : bool :=
  match dt with
  | DT_INT32 | DT_INT64 => true
  | _ => false
  end.

(** Values that exist while a graph executes: numbers, booleans and
    N-dimensional arrays as nested lists.  A floating value is kept as the
    exact rational it denotes. *)
Inductive value : Type :=
| VInt (z : Z)
| VReal (q : Q)
| VBool (b : bool)
| VArr (xs : list value).

(** Failures of a graph execution. *)
Inductive run_error : Type :=
| RuntimeAssertionViolated (msg : string)
| ExecutionError (msg : string).

Inductive outcome (A : Type) : Type :=
| Done (a : A)
| Fail (e : run_error).
Arguments Done {A} a.
Arguments Fail {A} e.

Definition obind {A B : Type} (o : outcome A) (k : A -> outcome B) : outcome B :=
  match o with
  | Done a => k a
  | Fail e => Fail e
  end.

(** The caller-supplied reduction ([tf.reduce_sum], [tf.reduce_prod], ...):
    the type of the node it adds to the graph and what that node computes
    from the value of its input and a list of axes. *)
Record Operation : Type := {
  op_name : string;
  op_sem : value -> list Z -> outcome value
}.

(** Tensors, as the terms that denote them. *)
Inductive Tensor : Type :=
| TConst (dt : dtype) (v : value)
| TPlaceholder (name : string) (dt : dtype)
| TNeg (x : Tensor)
| TGreater (x y : Tensor)
| TRange (start limit : Tensor)
| TCond (pred true_branch false_branch : Tensor)
| TAssertNonNegative (msg : string) (x : Tensor)
| TApply (op : Operation) (x axis : Tensor).

Fixpoint dtype_of (t : Tensor) : dtype :=
  match t with
  | TConst dt _ => dt
  | TPlaceholder _ dt => dt
  | TNeg x => dtype_of x
  | TGreater _ _ => DT_BOOL
  | TRange start _ => dtype_of start
  | TCond _ t _ => dtype_of t
  | TAssertNonNegative _ x => dtype_of x
  | TApply _ x _ => dtype_of x
  end.

(** ** Executing a graph *)

Definition feed := list (string * value).

Fixpoint lookup_feed (fd : feed) (name : string) : option value :=
  match fd with
  | [] => None
  | (n, v) :: rest => if String.eqb n name then Some v else lookup_feed rest name
  end.

(** [zrange lo hi] is [lo; lo+1; ...; hi-1]. *)
Definition zrange (lo hi : Z) : list Z :=
  map (fun i => lo + Z.of_nat i) (seq 0 (Z.to_nat (hi - lo))).

Definition qrange (lo hi : Q) : list Q :=
  map (fun i => Qplus lo (inject_Z (Z.of_nat i)))
      (seq 0 (Z.to_nat (Qceiling (Qminus hi lo)))).

Definition as_real (v : value) : option Q :=
  match v with
  | VInt z => Some (inject_Z z)
  | VReal q => Some q
  | _ => None
  end.

Definition value_neg (v : value) : outcome value :=
  match v with
  | VInt z => Done (VInt (- z))
  | VReal q => Done (VReal (Qopp q))
  | _ => Fail (ExecutionError "Neg: not a number")
  end.

Definition value_greater (x y : value) : outcome value :=
  match x, y with
  | VInt a, VInt b => Done (VBool (b <? a))
  | _, _ =>
      match as_real x, as_real y with
      | Some a, Some b => Done (VBool (negb (Qle_bool a b)))
      | _, _ => Fail (ExecutionError "Greater: not a number")
      end
  end.

Definition value_range (start limit : value) : outcome value :=
  match start, limit with
  | VInt a, VInt b => Done (VArr (map VInt (zrange a b)))
  | _, _ =>
      match as_real start, as_real limit with
      | Some a, Some b => Done (VArr (map VReal (qrange a b)))
      | _, _ => Fail (ExecutionError "Range: not a number")
      end
  end.

Fixpoint as_axes (vs : list value) : option (list Z) :=
  match vs with
  | [] => Some []
  | VInt z :: rest => option_map (cons z) (as_axes rest)
  | _ :: _ => None
  end.

Definition value_axes (v : value) : outcome (list Z) :=
  match v with
  | VInt z => Done [z]
  | VArr vs =>
      match as_axes vs with
      | Some l => Done l
      | None => Fail (ExecutionError "axis: not integers")
      end
  | _ => Fail (ExecutionError "axis: not integers")
  end.

(** [run fd t] executes the graph that ends in [t] with the feed [fd].  Of a
    conditional only the selected branch executes. *)
Fixpoint run (fd : feed) (t : Tensor) : outcome value :=
  match t with
  | TConst _ v => Done v
  | TPlaceholder name _ =>
      match lookup_feed fd name with
      | Some v => Done v
      | None => Fail (ExecutionError "placeholder not fed")
      end
  | TNeg x => obind (run fd x) value_neg
  | TGreater x y =>
      obind (run fd x) (fun vx => obind (run fd y) (value_greater vx))
  | TRange start limit =>
      obind (run fd start) (fun a => obind (run fd limit) (value_range a))
  | TCond pred t f =>
      obind (run fd pred) (fun p =>
        match p with
        | VBool true => run fd t
        | VBool false => run fd f
        | _ => Fail (ExecutionError "cond: predicate is not a boolean")
        end)
  | TAssertNonNegative msg x =>
      obind (run fd x) (fun v =>
        match v with
        | VInt z =>
            if z <? 0 then Fail (RuntimeAssertionViolated msg) else Done v
        | VReal q =>
            if Qle_bool 0 q then Done v else Fail (RuntimeAssertionViolated msg)
        | _ => Fail (ExecutionError "assert: not a number")
        end)
  | TApply op x axis =>
      obind (run fd x) (fun vx =>
        obind (run fd axis) (fun va =>
          obind (value_axes va) (op_sem op vx)))
  end.

(** ** Graph construction *)

(** A node of the graph: the name scope it was created under (outermost
    scope first) and its type. *)
Record node : Type := {
  node_scope : list string;
  node_type : string
}.

(** One call of the caller-supplied callable, with its two arguments. *)
Record call : Type := {
  call_op : Operation;
  call_tensor : Tensor;
  call_axis : Tensor
}.

(** What construction code can change: the default graph (its current name
    scope, the scope names already handed out, its nodes in creation order)
    and the trace of the calls made to the caller-supplied callable. *)
Record world : Type := {
  name_stack : list string;
  names_in_use : list (list string);
  nodes : list node;
  op_calls : list call
}.

Definition empty_world : world :=
  {| name_stack := []; names_in_use := []; nodes := []; op_calls := [] |}.

(** Python exceptions that the embedded code can raise: the one kind of
    failure of [TensorArgValidator], which the specification calls
    InvalidArgument, and the [TypeError] of Python itself when a tensor is
    used as a truth value. *)
Inductive exn : Type :=
| InvalidArgument (msg : string)
| TypeError (msg : string).

Inductive result (A : Type) : Type :=
| Ok (a : A)
| Raise (e : exn).
Arguments Ok {A} a.
Arguments Raise {A} e.

(** State and exceptions: what was done to the world before an exception
    was raised stays done. *)
Definition M (A : Type) : Type := world -> result A * world.

Definition ret {A : Type} (a : A) : M A := fun w => (Ok a, w).

Definition raise {A : Type} (e : exn) : M A := fun w => (Raise e, w).

Definition bind {A B : Type} (m : M A) (k : A -> M B) : M B :=
  fun w =>
    match m w with
    | (Ok a, w') => k a w'
    | (Raise e, w') => (Raise e, w')
    end.

Declare Scope graph_scope.
Delimit Scope graph_scope with graph.
Notation "x <- m ;; k" := (bind m (fun x => k))
  (at level 100, m at next level, right associativity) : graph_scope.
Notation "m ;;; k" := (bind m (fun _ => k))
  (at level 100, right associativity) : graph_scope.
Local Open Scope graph_scope.

Definition add_node (type : string) : M unit :=
  fun w =>
    (Ok tt,
     {| name_stack := name_stack w;
        names_in_use := names_in_use w;
        nodes :=
          (nodes w ++ [{| node_scope := name_stack w; node_type := type |}])%list;
        op_calls := op_calls w |}).

Definition string_of_nat (n : nat) : string :=
  NilZero.string_of_uint (Nat.to_uint n).

(** [Graph.unique_name]: the scope [name] under the current scope, with a
    numeric suffix from its second use on.  Which number a name gets when
    names clash (TensorFlow compares them without regard to case and also
    counts the names it has handed out) is not followed here; the
    statements below only rely on the form of the result, see
    [scope_named]. *)
Definition unique_name (w : world) (name : string) : list string :=
  let key := (name_stack w ++ [name])%list in
  match count_occ (list_eq_dec string_dec) (names_in_use w) key with
  | O => key
  | S i =>
      (name_stack w ++ [String.append name (String.append "_" (string_of_nat (S i)))])%list
  end.

(** [with tf.name_scope(name, default_name=...): body], for a name that
    TensorFlow nests under the current scope (see [accepted_name]).  The
    scope is left when the body returns and when it raises. *)
Definition name_scope {A : Type}
    (name : option string) (default_name : string) (body : M A) : M A :=
  fun w =>
    let n := match name with Some n => n | None => default_name end in
    let entered :=
      {| name_stack := unique_name w n;
         names_in_use := (name_stack w ++ [n])%list :: names_in_use w;
         nodes := nodes w;
         op_calls := op_calls w |} in
    let (r, w') := body entered in
    (r,
     {| name_stack := name_stack w;
        names_in_use := names_in_use w';
        nodes := nodes w';
        op_calls := op_calls w' |}).

(** Python objects that reach the [group_ndims] argument or are computed
    from it: an [int], a [float] (the exact rational it denotes), a [bool]
    or a tensor. *)
Inductive pyobj : Type :=
| PyInt (z : Z)
| PyFloat (q : Q)
| PyBool (b : bool)
| PyTensor (t : Tensor).

(** The number a concrete object denotes ([True] is 1 and [False] is 0). *)
Definition number_of (x : pyobj) : option Q :=
  match x with
  | PyInt z => Some (inject_Z z)
  | PyFloat q => Some q
  | PyBool b => Some (inject_Z (if b then 1 else 0))
  | PyTensor _ => None
  end.

(** [tf.convert_to_tensor]: a tensor is itself, a Python number becomes a
    constant node. *)
Definition convert_to_tensor (x : pyobj) : M Tensor :=
  match x with
  | PyTensor t => ret t
  | PyInt z => add_node "Const" ;;; ret (TConst DT_INT32 (VInt z))
  | PyFloat q => add_node "Const" ;;; ret (TConst DT_FLOAT32 (VReal q))
  | PyBool b => add_node "Const" ;;; ret (TConst DT_BOOL (VBool b))
  end.

(** [x > y] where [x] is a tensor. *)
Definition tf_greater (x : Tensor) (y : pyobj) : M Tensor :=
  y' <- convert_to_tensor y ;;
  add_node "Greater" ;;;
  ret (TGreater x y').

(** [-x] where [x] is a tensor. *)
Definition tf_negative (x : Tensor) : M Tensor :=
  add_node "Neg" ;;;
  ret (TNeg x).

(** [tf.range(start, limit)]. *)
Definition tf_range (start limit : pyobj) : M Tensor :=
  name_scope None "range"
    (s <- convert_to_tensor start ;;
     l <- convert_to_tensor limit ;;
     add_node "Range" ;;;
     ret (TRange s l)).

(** [tf.cond(pred, true_fn, false_fn)]: both callables are called, once
    each and the true one first, while the graph is built.  The branches
    are taken to give tensors of one type, which [tf.cond] asks for. *)
Definition tf_cond (pred : pyobj) (true_fn false_fn : unit -> M Tensor) : M Tensor :=
  name_scope None "cond"
    (pred <- convert_to_tensor pred ;;
     add_node "Switch" ;;;
     t <- true_fn tt ;;
     f <- false_fn tt ;;
     add_node "Merge" ;;;
     ret (TCond pred t f)).

(** Calling the caller-supplied callable: the call is recorded, the
    callable adds its node and returns the tensor of that node.  The
    callable is taken to accept its arguments: what it does when it refuses
    them while the graph is built is not followed. *)
Definition record_call (op : Operation) (x axis : Tensor) : M unit :=
  fun w =>
    (Ok tt,
     {| name_stack := name_stack w;
        names_in_use := names_in_use w;
        nodes := nodes w;
        op_calls :=
          (op_calls w ++
             [{| call_op := op; call_tensor := x; call_axis := axis |}])%list |}).

Definition invoke (op : Operation) (x axis : Tensor) : M Tensor :=
  record_call op x axis ;;;
  add_node (op_name op) ;;;
  ret (TApply op x axis).

(** Python's [x > y] for an integer literal [y]: a [Greater] node when [x]
    is a tensor, a comparison of numbers otherwise. *)
Definition py_gt (x : pyobj) (y : Z) : M pyobj :=
  match x with
  | PyTensor t => r <- tf_greater t (PyInt y) ;; ret (PyTensor r)
  | PyInt z => ret (PyBool (y <? z))
  | PyFloat q => ret (PyBool (negb (Qle_bool q (inject_Z y))))
  | PyBool b => ret (PyBool (y <? (if b then 1 else 0)))
  end.

(** Python's unary [-x]. *)
Definition py_neg (x : pyobj) : M pyobj :=
  match x with
  | PyTensor t => r <- tf_negative t ;; ret (PyTensor r)
  | PyInt z => ret (PyInt (- z))
  | PyFloat q => ret (PyFloat (Qopp q))
  | PyBool b => ret (PyInt (- (if b then 1 else 0)))
  end.

(** The truth value that [if c:] takes of [c]. *)
Definition truth (c : pyobj) : M bool :=
  match c with
  | PyBool b => ret b
  | PyInt z => ret (negb (z =? 0))
  | PyFloat q => ret (negb (Qeq_bool q 0))
  | PyTensor _ => raise (TypeError "Using a tf.Tensor as a Python bool is not allowed")
  end.

(** ** tfsnippet.utils *)

(** Modelled from the spec: [tfsnippet.utils.is_tensor_object], which is not
    among the sources.  It tells a symbolic value (a handle into the graph)
    from a concrete one. *)
Definition is_tensor_object (x : pyobj) : bool :=
  match x with
  | PyTensor _ => true
  | _ => false
  end.

Definition q_integral (q : Q) : bool := Qnum q mod Zpos (Qden q) =? 0.

Definition q_negative (q : Q) : bool := Qnum q <? 0.

(** Modelled from the spec: the class [tfsnippet.utils.TensorArgValidator],
    which is not among the sources.  An instance keeps the name of the
    argument it validates, for its messages. *)
Record TensorArgValidator : Type := {
  validator_name : string
}.

(** Modelled from the spec: [TensorArgValidator.require_int32], which is not
    among the sources.  A concrete value fails when it is not integral and
    is returned unchanged otherwise; a symbolic value fails at once when its
    declared type is not integer-compatible and is returned otherwise. *)
Definition require_int32 (v : TensorArgValidator) (x : pyobj) : M pyobj :=
  match x with
  | PyTensor t =>
      if is_integer (dtype_of t) then ret x
      else raise (InvalidArgument
                    (String.append (validator_name v) " must be an integer tensor"))
  | _ =>
      match number_of x with
      | Some q =>
          if q_integral q then ret x
          else raise (InvalidArgument
                        (String.append (validator_name v) " must be an integer"))
      | None => ret x
      end
  end.

(** Modelled from the spec: [TensorArgValidator.require_non_negative], which
    is not among the sources.  A concrete value fails when it is negative
    and is returned unchanged otherwise; for a symbolic value an assertion
    is added to the graph, and the value returned depends on it, so that the
    check happens when the graph executes. *)
Definition require_non_negative (v : TensorArgValidator) (x : pyobj) : M pyobj :=
  match x with
  | PyTensor t =>
      add_node "Assert" ;;;
      add_node "Identity" ;;;
      ret (PyTensor
             (TAssertNonNegative
                (String.append (validator_name v) " must be non-negative") t))
  | _ =>
      match number_of x with
      | Some q =>
          if q_negative q
          then raise (InvalidArgument
                        (String.append (validator_name v) " must be non-negative"))
          else ret x
      | None => ret x
      end
  end.

(** ** tfsnippet.distributions.utils *)

(** The context manager [gen_name_scope] local to [validate_group_ndims]. *)
Definition gen_name_scope {A : Type}
    (group_ndims : pyobj) (name : option string) (body : M A) : M A :=
  if is_tensor_object group_ndims then
    name_scope name "validate_group_ndims" body
  else
    body.

Definition validate_group_ndims (group_ndims : pyobj) (name : option string) : M pyobj :=
  gen_name_scope group_ndims name
    (let validator := {| validator_name := "group_ndims" |} in
     checked <- require_int32 validator group_ndims ;;
     require_non_negative validator checked).

Definition reduce_group_ndims
    (operation : Operation) (tensor : Tensor) (group_ndims : pyobj)
    (name : option string) : M Tensor :=
  group_ndims <- validate_group_ndims group_ndims None ;;
  name_scope name "reduce_group_ndims"
    (if is_tensor_object group_ndims then
       pred <- py_gt group_ndims 0 ;;
       tf_cond pred
         (fun _ =>
            start <- py_neg group_ndims ;;
            axis <- tf_range start (PyInt 0) ;;
            invoke operation tensor axis)
         (fun _ => ret tensor)
     else
       positive <- (c <- py_gt group_ndims 0 ;; truth c) ;;
       if (positive : bool) then
         start <- py_neg group_ndims ;;
         axis <- tf_range start (PyInt 0) ;;
         invoke operation tensor axis
       else
         ret tensor).

(** ** An operation to reduce with *)

(** [tf.reduce_sum] as an instance of [Operation]: the sum over the given
    axes of an array; a negative axis counts from the last one. *)
Fixpoint rank (v : value) : nat :=
  match v with
  | VArr (x :: _) => S (rank x)
  | VArr [] => 1
  | _ => 0
  end.

Fixpoint value_add (x y : value) : value :=
  match x, y with
  | VInt a, VInt b => VInt (a + b)
  | VReal a, VReal b => VReal (Qplus a b)
  | VArr xs, VArr ys =>
      VArr ((fix zip (xs ys : list value) : list value :=
               match xs, ys with
               | x :: xs', y :: ys' => value_add x y :: zip xs' ys'
               | _, _ => []
               end) xs ys)
  | _, _ => x
  end.

Definition value_sum (vs : list value) : value :=
  match vs with
  | [] => VInt 0
  | v :: rest => fold_left value_add rest v
  end.

Fixpoint sum_axes (axes : list nat) (depth : nat) (v : value) : value :=
  match v with
  | VArr xs =>
      let ys := map (sum_axes axes (S depth)) xs in
      if existsb (Nat.eqb depth) axes then value_sum ys else VArr ys
  | _ => v
  end.

Definition reduce_sum_sem (v : value) (axes : list Z) : outcome value :=
  let r := Z.of_nat (rank v) in
  if forallb (fun a => (- r <=? a) && (a <? r)) axes then
    Done (sum_axes (map (fun a => Z.to_nat (if a <? 0 then a + r else a)) axes) 0%nat v)
  else
    Fail (ExecutionError "reduction axis out of range").

Definition reduce_sum : Operation :=
  {| op_name := "Sum"; op_sem := reduce_sum_sem |}.

(** ** Vocabulary of the statements *)

(** The last [g] axes of an array, in their order: [-g; ...; -1]. *)
Definition last_axes (g : Z) : list Z :=
  map (fun i => Z.of_nat i - g) (seq 0 (Z.to_nat g)).

(** A concrete object: one that is not a tensor. *)
Definition concrete (x : pyobj) : bool := negb (is_tensor_object x).

Definition py_integral (x : pyobj) : bool :=
  match number_of x with
  | Some q => q_integral q
  | None => false
  end.

Definition py_negative (x : pyobj) : bool :=
  match number_of x with
  | Some q => q_negative q
  | None => false
  end.

(** Python's [x == 0] for a concrete [x]. *)
Definition py_is_zero (x : pyobj) : bool :=
  match number_of x with
  | Some q => Qnum q =? 0
  | None => false
  end.

(** Python's [x > 0] for a concrete [x]. *)
Definition py_positive (x : pyobj) : bool :=
  match number_of x with
  | Some q => 0 <? Qnum q
  | None => false
  end.

(** The nodes that a construction step added, given the worlds before and
    after it. *)
Definition inserted (w w' : world) : list node :=
  skipn (List.length (nodes w)) (nodes w').

Fixpoint is_prefix (p l : list string) : bool :=
  match p, l with
  | [], _ => true
  | x :: p', y :: l' => String.eqb x y && is_prefix p' l'
  | _ :: _, [] => false
  end.

(** The node lies in the name scope [scope] or in a scope nested in it. *)
Definition under_scope (scope : list string) (n : node) : bool :=
  is_prefix scope (node_scope n).

(** The name that [tf.name_scope(name, default_name=...)] asks for. *)
Definition scope_name (name : option string) (default_name : string) : string :=
  match name with
  | Some n => n
  | None => default_name
  end.

(** A step keeps the current name scope and only adds nodes, all of them
    under the scope that was current when it started. *)
Definition scoped {A : Type} (m : M A) : Prop :=
  forall w,
    name_stack (snd (m w)) = name_stack w /\
    exists added,
      nodes (snd (m w)) = (nodes w ++ added)%list /\
      Forall (fun n => under_scope (name_stack w) n = true) added.

(** With a name from the caller, every node that a call of
    [reduce_group_ndims] inserts lies under the scope entered for that
    name. *)
Definition all_under_callers_scope
    (op : Operation) (a : Tensor) (g : pyobj) (name : string) (w : world) : Prop :=
  let w1 := snd (validate_group_ndims g None w) in
  let w' := snd (reduce_group_ndims op a g (Some name) w) in
  forall n, In n (inserted w w') -> under_scope (unique_name w1 name) n = true.

(** The messages of the validator of [group_ndims]. *)
Definition non_negative_message : string := "group_ndims must be non-negative".

Definition not_integer_message : string := "group_ndims must be an integer".

(** The world after [validate_group_ndims] accepted a symbolic value. *)
Definition validated_world (name : option string) (w : world) : world :=
  let scope := unique_name w (scope_name name "validate_group_ndims") in
  {| name_stack := name_stack w;
     names_in_use :=
       (name_stack w ++ [scope_name name "validate_group_ndims"])%list
         :: names_in_use w;
     nodes :=
       (nodes w ++ [{| node_scope := scope; node_type := "Assert" |};
                    {| node_scope := scope; node_type := "Identity" |}])%list;
     op_calls := op_calls w |}.

(** The world after [validate_group_ndims] rejected a symbolic value: the
    scope was entered and left, nothing was added. *)
Definition rejected_world (name : option string) (w : world) : world :=
  {| name_stack := name_stack w;
     names_in_use :=
       (name_stack w ++ [scope_name name "validate_group_ndims"])%list
         :: names_in_use w;
     nodes := nodes w;
     op_calls := op_calls w |}.

(** The tensors that [reduce_group_ndims] builds from a symbolic count [t]:
    the count behind its assertion, the axes of the reduction and the
    conditional that is returned. *)
Definition checked_count (t : Tensor) : Tensor :=
  TAssertNonNegative non_negative_message t.

Definition symbolic_axis (t : Tensor) : Tensor :=
  TRange (TNeg (checked_count t)) (TConst DT_INT32 (VInt 0)).

Definition symbolic_result (op : Operation) (a t : Tensor) : Tensor :=
  TCond (TGreater (checked_count t) (TConst DT_INT32 (VInt 0)))
        (TApply op a (symbolic_axis t))
        a.

(** The axes of the reduction for a concrete count [g]. *)
Definition concrete_axis (g : Z) : Tensor :=
  TRange (TConst DT_INT32 (VInt (- g))) (TConst DT_INT32 (VInt 0)).

(** A tensor to reduce and a symbolic count, for the examples. *)
Definition example_tensor : Tensor :=
  TConst DT_INT32 (VArr [VArr [VInt 1; VInt 2]; VArr [VInt 3; VInt 4]]).

Definition example_count : Tensor := TPlaceholder "group_ndims" DT_INT32.

(** The tensor that [reduce_group_ndims] returns for a concrete count that
    passed validation: [tf.convert_to_tensor] of the negated count starts
    the range of the axes. *)
Definition negated_constant (g : pyobj) : Tensor :=
  match g with
  | PyInt z => TConst DT_INT32 (VInt (- z))
  | PyFloat q => TConst DT_FLOAT32 (VReal (Qopp q))
  | PyBool b => TConst DT_INT32 (VInt (- (if b then 1 else 0)))
  | PyTensor t => TNeg t
  end.

Definition concrete_result (op : Operation) (a : Tensor) (g : pyobj) : Tensor :=
  if py_positive g then
    TApply op a (TRange (negated_constant g) (TConst DT_INT32 (VInt 0)))
  else a.

(** ** setup.py: the requirements of the package *)

(** The text of a file, as the code points of its characters (the bytes of
    the file under Python 2, where [read_file] does not decode). *)
Definition text : Type := list N.

Definition newline : N := 10%N.

Definition hash : N := 35%N.

(** The characters of ['git+']. *)
Definition git_plus : text := [103%N; 105%N; 116%N; 43%N].

(** The whitespace of a byte string, which [strip] removes under Python 2:
    tab, line feed, vertical tab, form feed, carriage return and space.
    Under Python 3 the file is decoded and the whitespace is that of
    [str.isspace]; the functions below take the class as an argument. *)
Definition bytes_isspace (c : N) : bool :=
  ((9 <=? c) && (c <=? 13) || (c =? 32))%N.

(** [s.split(sep)] for a separator of one character: a piece for every
    stretch between separators, empty pieces included. *)
Fixpoint split (sep : N) (s : text) : list text :=
  match s with
  | [] => [[]]
  | c :: rest =>
      if (c =? sep)%N then [] :: split sep rest
      else
        match split sep rest with
        | piece :: pieces => (c :: piece) :: pieces
        | [] => [[c]]
        end
  end.

(** [sep.join(pieces)]. *)
Fixpoint join (sep : N) (pieces : list text) : text :=
  match pieces with
  | [] => []
  | [piece] => piece
  | piece :: rest => (piece ++ sep :: join sep rest)%list
  end.

Fixpoint lstrip (is_space : N -> bool) (s : text) : text :=
  match s with
  | [] => []
  | c :: rest => if is_space c then lstrip is_space rest else s
  end.

Definition rstrip (is_space : N -> bool) (s : text) : text :=
  rev (lstrip is_space (rev s)).

(** [s.strip()]. *)
Definition strip (is_space : N -> bool) (s : text) : text :=
  rstrip is_space (lstrip is_space s).

(** [s.startswith(prefix)]. *)
Fixpoint startswith (prefix s : text) : bool :=
  match prefix, s with
  | [], _ => true
  | p :: prefix', c :: s' => (c =? p)%N && startswith prefix' s'
  | _ :: _, [] => false
  end.

(** The test [lambda v: v and not v.startswith('#')]. *)
Definition is_requirement (v : text) : bool :=
  match v with
  | [] => false
  | _ :: _ => negb (startswith [hash] v)
  end.

(** [requirements_list], from the text of [requirements.txt]. *)
Definition requirements_list (is_space : N -> bool) (content : text) : list text :=
  filter is_requirement (map (strip is_space) (split newline content)).

Definition dependency_links (requirements_list : list text) : list text :=
  filter (startswith git_plus) requirements_list.

Definition install_requires (requirements_list : list text) : list text :=
  filter (fun s => negb (startswith git_plus s)) requirements_list.

(** The text of a string of ASCII characters, for the examples. *)
Fixpoint text_of_string (s : string) : text :=
  match s with
  | EmptyString => []
  | String c rest => Ascii.N_of_ascii c :: text_of_string rest
  end.

(** A text of whitespace only. *)
Definition all_spaces (is_space : N -> bool) (s : text) : Prop :=
  Forall (fun c => is_space c = true) s.

(** The first and the last character of a text. *)
Definition first_char (s : text) : option N := hd_error s.

Definition last_char (s : text) : option N := hd_error (rev s).

(** What makes a text an entry that [requirements_list] gives back as it
    is: it is kept by the filter, it is one line, and it neither starts nor
    ends with whitespace. *)
Definition settled (is_space : N -> bool) (v : text) : Prop :=
  is_requirement v = true /\
  ~ In newline v /\
  (forall c, first_char v = Some c -> is_space c = false) /\
  (forall c, last_char v = Some c -> is_space c = false).

(** ** Scope names *)

(** The names that [tf.name_scope] takes as they are and nests under the
    current scope, whatever that scope is: a letter, a digit or a dot first,
    then letters, digits and [_ . - /], and no [/] at the end.  (An empty
    name and a name that ends in [/] do not nest, and a name with another
    character is refused; the statements about scopes are for the names
    below.) *)
Definition name_start_char (c : Ascii.ascii) : bool :=
  let n := Ascii.N_of_ascii c in
  ((65 <=? n) && (n <=? 90) || (97 <=? n) && (n <=? 122) ||
   (48 <=? n) && (n <=? 57) || (n =? 46))%N.

Definition name_char (c : Ascii.ascii) : bool :=
  let n := Ascii.N_of_ascii c in
  name_start_char c || ((n =? 95) || (n =? 45) || (n =? 47))%N.

Fixpoint all_name_chars (s : string) : bool :=
  match s with
  | EmptyString => true
  | String c rest => name_char c && all_name_chars rest
  end.

Fixpoint ends_with_slash (s : string) : bool :=
  match s with
  | EmptyString => false
  | String c EmptyString => (Ascii.N_of_ascii c =? 47)%N
  | String _ rest => ends_with_slash rest
  end.

Definition plain_scope_name (n : string) : bool :=
  match n with
  | EmptyString => false
  | String c rest =>
      name_start_char c && all_name_chars rest && negb (ends_with_slash n)
  end.

(** The [name] argument of the two functions: no name, or a plain one. *)
Definition accepted_name (name : option string) : bool :=
  match name with
  | None => true
  | Some n => plain_scope_name n
  end.

(** The scope [s] was named after [base]: it is [base] itself, or [base]
    with the number that makes it unique, as in [base_1]. *)
Definition scope_named (base s : string) : Prop :=
  s = base \/
  exists k : nat, s = String.append base (String.append "_" (string_of_nat k)).

(** ** Lemmas on ranges and axes *)

Lemma zrange_neg_last_axes (g : Z) : zrange (- g) 0 = last_axes g.
Proof.
  unfold zrange, last_axes.
  replace (0 - - g) with g by lia.
  apply map_ext; intros i; lia.
Qed.

Lemma last_axes_length (g : Z) : List.length (last_axes g) = Z.to_nat g.
Proof. unfold last_axes. now rewrite length_map, length_seq. Qed.

Lemma last_axes_nth (g : Z) (i : nat) :
  (i < Z.to_nat g)%nat -> nth i (last_axes g) 0 = Z.of_nat i - g.
Proof.
  intros Hi. unfold last_axes.
  set (f := fun i : nat => Z.of_nat i - g).
  transitivity (nth i (map f (seq 0 (Z.to_nat g))) (f 0%nat)).
  - apply nth_indep. now rewrite length_map, length_seq.
  - rewrite (map_nth f), seq_nth by exact Hi. reflexivity.
Qed.

Lemma as_axes_map_VInt (l : list Z) : as_axes (map VInt l) = Some l.
Proof.
  induction l as [|z l IH]; cbn; [reflexivity|].
  now rewrite IH.
Qed.

Lemma value_axes_ints (l : list Z) : value_axes (VArr (map VInt l)) = Done l.
Proof. cbn. now rewrite as_axes_map_VInt. Qed.

Example last_axes_3 : last_axes 3 = [-3; -2; -1].
Proof. reflexivity. Qed.

(** ** What validation does, case by case *)

Lemma concrete_number (g : pyobj) :
  concrete g = true -> exists q, number_of g = Some q.
Proof. destruct g; try discriminate; intros _; eexists; reflexivity. Qed.

(** Validation of a concrete object, as the two tests on the number it
    denotes. *)
Lemma validate_concrete_eq (g : pyobj) (q : Q) (name : option string) (w : world) :
  number_of g = Some q ->
  validate_group_ndims g name w =
    if q_integral q then
      if q_negative q then (Raise (InvalidArgument non_negative_message), w)
      else (Ok g, w)
    else (Raise (InvalidArgument not_integer_message), w).
Proof.
  intros Hnum.
  unfold validate_group_ndims, gen_name_scope.
  destruct g as [z|r|b|t]; try discriminate; cbn [is_tensor_object];
    cbv beta iota delta [bind ret raise require_int32 require_non_negative];
    rewrite Hnum; destruct (q_integral q); try reflexivity;
    cbv beta iota; rewrite Hnum; destruct (q_negative q); reflexivity.
Qed.

Lemma validate_concrete_ok (g : pyobj) (name : option string) (w : world) :
  concrete g = true -> py_integral g = true -> py_negative g = false ->
  validate_group_ndims g name w = (Ok g, w).
Proof.
  intros Hc. destruct (concrete_number g Hc) as [q Hnum].
  unfold py_integral, py_negative. rewrite Hnum. intros Hint Hneg.
  rewrite (validate_concrete_eq g q) by exact Hnum.
  now rewrite Hint, Hneg.
Qed.

Lemma validate_concrete_fail (g : pyobj) (name : option string) (w : world) :
  concrete g = true -> py_negative g = true \/ py_integral g = false ->
  exists msg, validate_group_ndims g name w = (Raise (InvalidArgument msg), w).
Proof.
  intros Hc. destruct (concrete_number g Hc) as [q Hnum].
  unfold py_integral, py_negative. rewrite Hnum. intros Hbad.
  rewrite (validate_concrete_eq g q) by exact Hnum.
  destruct (q_integral q); [|eexists; reflexivity].
  destruct Hbad as [->|?]; [eexists; reflexivity|discriminate].
Qed.

Lemma validate_concrete_frame (g : pyobj) (name : option string) (w : world) :
  concrete g = true ->
  validate_group_ndims g name w = validate_group_ndims g None w /\
  snd (validate_group_ndims g name w) = w.
Proof.
  intros Hc. destruct (concrete_number g Hc) as [q Hnum].
  rewrite !(validate_concrete_eq g q) by exact Hnum.
  split; [reflexivity|].
  destruct (q_integral q); [destruct (q_negative q)|]; reflexivity.
Qed.

Lemma validate_tensor_ok (t : Tensor) (name : option string) (w : world) :
  is_integer (dtype_of t) = true ->
  validate_group_ndims (PyTensor t) name w =
    (Ok (PyTensor (TAssertNonNegative non_negative_message t)),
     validated_world name w).
Proof.
  intros Hdt.
  unfold validate_group_ndims, gen_name_scope, name_scope, bind, require_int32.
  cbn [is_tensor_object]. rewrite Hdt.
  unfold validated_world.
  destruct name; cbn; rewrite <- app_assoc; reflexivity.
Qed.

Lemma validate_tensor_fail (t : Tensor) (name : option string) (w : world) :
  is_integer (dtype_of t) = false ->
  validate_group_ndims (PyTensor t) name w =
    (Raise (InvalidArgument "group_ndims must be an integer tensor"),
     rejected_world name w).
Proof.
  intros Hdt.
  unfold validate_group_ndims, gen_name_scope, name_scope, bind, require_int32.
  cbn [is_tensor_object]. rewrite Hdt.
  destruct name; reflexivity.
Qed.

(** Whatever validation returns is symbolic exactly when its argument is. *)
Lemma validate_keeps_kind (g g' : pyobj) (name : option string) (w w' : world) :
  validate_group_ndims g name w = (Ok g', w') ->
  is_tensor_object g' = is_tensor_object g.
Proof.
  destruct (concrete g) eqn:Hc.
  - destruct (concrete_number g Hc) as [q Hnum].
    rewrite (validate_concrete_eq g q) by exact Hnum.
    destruct (q_integral q); [destruct (q_negative q)|]; try discriminate.
    now intros [= <- _].
  - destruct g as [z|q|b|t]; try discriminate.
    destruct (is_integer (dtype_of t)) eqn:Hdt.
    + rewrite validate_tensor_ok by exact Hdt. now intros [= <- _].
    + rewrite validate_tensor_fail by exact Hdt. discriminate.
Qed.

(** ** What the reduction does after validation *)

(** Runs the construction steps of the goal on a world that is a variable:
    the names that [unique_name] hands out are left as they are. *)
Ltac build_graph := cbn -[unique_name Z.opp String.append].

Lemma Qle_bool_zero (q : Q) : negb (Qle_bool q (inject_Z 0)) = (0 <? Qnum q).
Proof.
  unfold Qle_bool. cbn. rewrite Z.mul_1_r.
  destruct (Z.leb_spec (Qnum q) 0), (Z.ltb_spec 0 (Qnum q)); cbn; lia.
Qed.

(** The test [if group_ndims > 0:] on a concrete object. *)
Lemma positive_test (g : pyobj) (w : world) :
  concrete g = true ->
  (c <- py_gt g 0 ;; truth c) w = (Ok (py_positive g), w).
Proof.
  destruct g as [z|q|b|t]; try discriminate; intros _;
    unfold bind, py_gt, truth, ret, py_positive; cbn [number_of inject_Z Qnum].
  - reflexivity.
  - now rewrite Qle_bool_zero.
  - now destruct b.
Qed.

Lemma reduce_concrete_eq (op : Operation) (a : Tensor) (g : pyobj)
    (name : option string) (w : world) :
  concrete g = true -> py_integral g = true -> py_negative g = false ->
  reduce_group_ndims op a g name w =
    name_scope name "reduce_group_ndims"
      (if py_positive g then
         start <- py_neg g ;;
         axis <- tf_range start (PyInt 0) ;;
         invoke op a axis
       else ret a) w.
Proof.
  intros Hc Hint Hneg.
  unfold reduce_group_ndims. unfold bind at 1.
  rewrite validate_concrete_ok by assumption.
  assert (Hobj : is_tensor_object g = false)
    by (unfold concrete in Hc; now destruct (is_tensor_object g)).
  rewrite Hobj. unfold name_scope. unfold bind at 1.
  rewrite positive_test by exact Hc. reflexivity.
Qed.

Lemma py_is_zero_valid (g : pyobj) :
  py_is_zero g = true ->
  concrete g = true /\ py_integral g = true /\ py_negative g = false /\
  py_positive g = false.
Proof.
  unfold py_is_zero, concrete, py_integral, py_negative, py_positive,
    q_integral, q_negative.
  destruct g as [z|q|b|t]; cbn [number_of is_tensor_object negb]; try discriminate;
    intros H%Z.eqb_eq; rewrite H; repeat split; reflexivity.
Qed.

Lemma reduce_concrete_positive_eq (op : Operation) (a : Tensor) (g : Z)
    (name : option string) (w : world) :
  0 < g ->
  exists w',
    reduce_group_ndims op a (PyInt g) name w =
      (Ok (TApply op a (concrete_axis g)), w') /\
    op_calls w' =
      (op_calls w ++
         [{| call_op := op; call_tensor := a; call_axis := concrete_axis g |}])%list.
Proof.
  intros Hg.
  assert (Hpos : py_positive (PyInt g) = true) by (apply Z.ltb_lt; exact Hg).
  rewrite reduce_concrete_eq.
  - rewrite Hpos. build_graph. eexists. split; reflexivity.
  - reflexivity.
  - unfold py_integral, q_integral. cbn. now rewrite Z.mod_1_r.
  - unfold py_negative, q_negative. cbn. apply Z.ltb_ge. lia.
Qed.

Lemma run_concrete_axis (fd : feed) (g : Z) :
  run fd (concrete_axis g) = Done (VArr (map VInt (last_axes g))).
Proof. cbn. now rewrite zrange_neg_last_axes. Qed.

Lemma reduce_symbolic_eq (op : Operation) (a t : Tensor)
    (name : option string) (w : world) :
  is_integer (dtype_of t) = true ->
  exists w',
    reduce_group_ndims op a (PyTensor t) name w =
      (Ok (symbolic_result op a t), w') /\
    op_calls w' =
      (op_calls w ++
         [{| call_op := op; call_tensor := a; call_axis := symbolic_axis t |}])%list.
Proof.
  intros Hdt.
  unfold reduce_group_ndims. unfold bind at 1.
  rewrite validate_tensor_ok by exact Hdt.
  build_graph. eexists. split; reflexivity.
Qed.

(** Executing the conditional built for a symbolic count whose value at
    execution is the integer [k]. *)
Lemma run_symbolic_result (op : Operation) (a t : Tensor) (fd : feed) (k : Z) :
  run fd t = Done (VInt k) ->
  run fd (symbolic_result op a t) =
    if k <? 0 then Fail (RuntimeAssertionViolated non_negative_message)
    else if 0 <? k then obind (run fd a) (fun va => op_sem op va (last_axes k))
    else run fd a.
Proof.
  intros Hk. unfold symbolic_result, symbolic_axis, checked_count.
  cbn [run]. rewrite Hk. cbn [obind].
  destruct (k <? 0); [reflexivity|]. cbn [obind value_greater].
  destruct (0 <? k); [|reflexivity].
  destruct (run fd a) as [va|e]; [|reflexivity].
  cbn [obind value_neg value_range]. rewrite zrange_neg_last_axes.
  now rewrite value_axes_ints.
Qed.

(** ** Name scopes *)

Lemma is_prefix_app (p r : list string) : is_prefix p (p ++ r) = true.
Proof.
  induction p as [|x p IH]; cbn; [reflexivity|].
  now rewrite String.eqb_refl, IH.
Qed.

Lemma is_prefix_refl (p : list string) : is_prefix p p = true.
Proof. rewrite <- (app_nil_r p) at 2. apply is_prefix_app. Qed.

Lemma is_prefix_trans (p q l : list string) :
  is_prefix p q = true -> is_prefix q l = true -> is_prefix p l = true.
Proof.
  revert q l. induction p as [|x p IH]; intros q l; [reflexivity|].
  destruct q as [|y q]; [discriminate|].
  destruct l as [|z l]; [discriminate|].
  cbn. intros [Hxy Hpq]%andb_prop [Hyz Hql]%andb_prop.
  apply String.eqb_eq in Hxy, Hyz. subst.
  now rewrite String.eqb_refl, (IH q l).
Qed.

Lemma unique_name_nested (w : world) (name : string) :
  is_prefix (name_stack w) (unique_name w name) = true.
Proof.
  unfold unique_name.
  destruct (count_occ _ _ _); apply is_prefix_app.
Qed.

Lemma under_scope_weaken (outer inner : list string) (added : list node) :
  is_prefix outer inner = true ->
  Forall (fun n => under_scope inner n = true) added ->
  Forall (fun n => under_scope outer n = true) added.
Proof.
  intros Hnest. apply Forall_impl. intros n.
  unfold under_scope. now apply is_prefix_trans.
Qed.

Lemma inserted_app (w w' : world) (added : list node) :
  nodes w' = (nodes w ++ added)%list -> inserted w w' = added.
Proof.
  intros H. unfold inserted. rewrite H, skipn_app, skipn_all, Nat.sub_diag.
  reflexivity.
Qed.

(** The primitives are scoped, and sequencing keeps steps scoped. *)

Lemma scoped_ret {A : Type} (a : A) : scoped (ret a).
Proof. intros w. split; [reflexivity|]. exists []. now rewrite app_nil_r. Qed.

Lemma scoped_raise {A : Type} (e : exn) : scoped (@raise A e).
Proof. intros w. split; [reflexivity|]. exists []. now rewrite app_nil_r. Qed.

Lemma scoped_bind {A B : Type} (m : M A) (k : A -> M B) :
  scoped m -> (forall a, scoped (k a)) -> scoped (bind m k).
Proof.
  intros Hm Hk w. unfold bind.
  destruct (Hm w) as (Hstack & added & Hnodes & Hunder).
  destruct (m w) as [[a|e] w1]; cbn [snd] in *.
  - destruct (Hk a w1) as (Hstack' & added' & Hnodes' & Hunder').
    split; [congruence|].
    exists (added ++ added')%list. split.
    + now rewrite Hnodes', Hnodes, app_assoc.
    + apply Forall_app. split; [exact Hunder|].
      now rewrite <- Hstack.
  - split; [exact Hstack|]. now exists added.
Qed.

Lemma scoped_add_node (type : string) : scoped (add_node type).
Proof.
  intros w. split; [reflexivity|]. eexists. split; [reflexivity|].
  constructor; [|constructor]. apply is_prefix_refl.
Qed.

Lemma scoped_record_call (op : Operation) (x axis : Tensor) :
  scoped (record_call op x axis).
Proof. intros w. split; [reflexivity|]. exists []. cbn. now rewrite app_nil_r. Qed.

(** A name scope puts what its body adds under the scope it enters, and
    leaves the scope that was current. *)
Lemma name_scope_under {A : Type}
    (name : option string) (default_name : string) (body : M A) (w : world) :
  scoped body ->
  name_stack (snd (name_scope name default_name body w)) = name_stack w /\
  exists added,
    nodes (snd (name_scope name default_name body w)) = (nodes w ++ added)%list /\
    Forall (fun n =>
              under_scope (unique_name w (scope_name name default_name)) n = true)
           added.
Proof.
  intros Hbody. unfold name_scope, scope_name.
  match goal with
  | |- context [body ?entered] =>
      destruct (Hbody entered) as (_ & added & Hnodes & Hunder);
      destruct (body entered) as [r w']
  end.
  cbn [snd name_stack nodes] in *.
  split; [reflexivity|]. now exists added.
Qed.

Lemma scoped_name_scope {A : Type}
    (name : option string) (default_name : string) (body : M A) :
  scoped body -> scoped (name_scope name default_name body).
Proof.
  intros Hbody w.
  destruct (name_scope_under name default_name body w Hbody)
    as (Hstack & added & Hnodes & Hunder).
  split; [exact Hstack|]. exists added. split; [exact Hnodes|].
  eapply under_scope_weaken; [apply unique_name_nested|exact Hunder].
Qed.

Create HintDb scoped.

#[local] Hint Resolve scoped_ret scoped_raise scoped_add_node scoped_record_call
  scoped_name_scope : scoped.

Ltac scoped_steps :=
  repeat first
    [ apply scoped_bind; [|intros ?]
    | solve [auto with scoped] ].

Lemma scoped_convert_to_tensor (x : pyobj) : scoped (convert_to_tensor x).
Proof. destruct x; cbn [convert_to_tensor]; scoped_steps. Qed.

#[local] Hint Resolve scoped_convert_to_tensor : scoped.

Lemma scoped_tf_range (start limit : pyobj) : scoped (tf_range start limit).
Proof. apply scoped_name_scope. scoped_steps. Qed.

Lemma scoped_invoke (op : Operation) (x axis : Tensor) : scoped (invoke op x axis).
Proof. unfold invoke. scoped_steps. Qed.

Lemma scoped_py_gt (x : pyobj) (y : Z) : scoped (py_gt x y).
Proof. destruct x; cbn [py_gt]; unfold tf_greater; scoped_steps. Qed.

Lemma scoped_py_neg (x : pyobj) : scoped (py_neg x).
Proof. destruct x; cbn [py_neg]; unfold tf_negative; scoped_steps. Qed.

Lemma scoped_truth (c : pyobj) : scoped (truth c).
Proof. destruct c; cbn [truth]; scoped_steps. Qed.

#[local] Hint Resolve scoped_tf_range scoped_invoke scoped_py_gt scoped_py_neg
  scoped_truth : scoped.

Lemma scoped_tf_cond (pred : pyobj) (true_fn false_fn : unit -> M Tensor) :
  scoped (true_fn tt) -> scoped (false_fn tt) ->
  scoped (tf_cond pred true_fn false_fn).
Proof. intros Ht Hf. apply scoped_name_scope. scoped_steps; assumption. Qed.

(** What validation adds to the graph lies under the scope it enters; for a
    concrete argument it adds nothing. *)
Lemma validate_nodes (g : pyobj) (name : option string) (w : world) :
  name_stack (snd (validate_group_ndims g name w)) = name_stack w /\
  exists checks,
    nodes (snd (validate_group_ndims g name w)) = (nodes w ++ checks)%list /\
    Forall (fun n =>
              under_scope
                (unique_name w (scope_name name "validate_group_ndims")) n = true)
           checks /\
    (concrete g = true -> checks = []).
Proof.
  destruct (concrete g) eqn:Hc.
  - destruct (validate_concrete_frame g name w Hc) as [_ ->].
    split; [reflexivity|]. exists []. rewrite app_nil_r. now repeat split.
  - destruct g as [z|q|b|t]; try discriminate.
    destruct (is_integer (dtype_of t)) eqn:Hdt.
    + rewrite validate_tensor_ok by exact Hdt. cbn [snd validated_world name_stack nodes].
      split; [reflexivity|]. eexists. split; [reflexivity|].
      split; [|discriminate].
      repeat constructor; apply is_prefix_refl.
    + rewrite validate_tensor_fail by exact Hdt. cbn [snd rejected_world name_stack nodes].
      split; [reflexivity|]. exists []. rewrite app_nil_r.
      split; [reflexivity|]. split; [constructor|discriminate].
Qed.

(** The scope that [unique_name] hands out is one step below the current
    one and named after what was asked for. *)
Lemma unique_name_named (w : world) (name : string) :
  exists s, scope_named name s /\ unique_name w name = (name_stack w ++ [s])%list.
Proof.
  unfold unique_name.
  destruct (count_occ _ _ _) as [|i]; eexists; (split; [|reflexivity]).
  - now left.
  - right. now exists (S i).
Qed.

Lemma reduce_propagates (op : Operation) (a : Tensor) (g : pyobj)
    (name : option string) (w w1 : world) (e : exn) :
  validate_group_ndims g None w = (Raise e, w1) ->
  reduce_group_ndims op a g name w = (Raise e, w1).
Proof. intros Hv. unfold reduce_group_ndims, bind. now rewrite Hv. Qed.

(** A list written as successive additions at the end, as one addition. *)
Ltac added_nodes :=
  cbn -[unique_name Z.opp String.append inserted];
  erewrite inserted_app;
    [|cbn -[unique_name Z.opp String.append]; rewrite <- !app_assoc; reflexivity].

Ltac find_node := cbn [app In]; repeat first [left; reflexivity | right].

(** When the operation is called, its node is among the nodes added after
    validation. *)
Lemma reduce_operation_node (op : Operation) (a : Tensor) (g : pyobj)
    (name : option string) (w : world) :
  op_calls (snd (reduce_group_ndims op a g name w)) = op_calls w \/
  exists n,
    In n (inserted (snd (validate_group_ndims g None w))
                   (snd (reduce_group_ndims op a g name w))) /\
    node_type n = op_name op.
Proof.
  destruct (concrete g) eqn:Hc.
  - destruct (validate_concrete_frame g None w Hc) as [_ ->].
    destruct (py_integral g) eqn:Hint; [destruct (py_negative g) eqn:Hneg|].
    + left. destruct (validate_concrete_fail g None w Hc (or_introl Hneg)) as [msg Hv].
      rewrite (reduce_propagates op a g name w w _ Hv). reflexivity.
    + rewrite reduce_concrete_eq by assumption.
      destruct (py_positive g); [|now left].
      right. exists {| node_scope := unique_name w (scope_name name "reduce_group_ndims");
                       node_type := op_name op |}.
      split; [|reflexivity].
      destruct g as [z|q|b|t]; try discriminate; destruct name;
        added_nodes; find_node.
    + left. destruct (validate_concrete_fail g None w Hc (or_intror Hint)) as [msg Hv].
      rewrite (reduce_propagates op a g name w w _ Hv). reflexivity.
  - destruct g as [z|q|b|t]; try discriminate.
    destruct (is_integer (dtype_of t)) eqn:Hdt.
    + right. unfold reduce_group_ndims. unfold bind at 1.
      rewrite validate_tensor_ok by exact Hdt.
      destruct name;
        (eexists {| node_scope := _; node_type := op_name op |};
         split; [|reflexivity]; added_nodes; find_node).
    + left.
      rewrite (reduce_propagates op a (PyTensor t) name w _ _
                 (validate_tensor_fail t None w Hdt)).
      reflexivity.
Qed.

(** The assertion that validation adds for a symbolic count of an integer
    type. *)
Lemma validate_assert_node (t : Tensor) (name : option string) (w : world) :
  is_integer (dtype_of t) = true ->
  exists n,
    In n (inserted w (snd (validate_group_ndims (PyTensor t) name w))) /\
    node_type n = "Assert".
Proof.
  intros Hdt. rewrite validate_tensor_ok by exact Hdt. cbn [snd].
  rewrite (inserted_app w (validated_world name w) _ eq_refl).
  eexists. split; [left; reflexivity|reflexivity].
Qed.

(** ** Properties of the specification *)

(** C1.  For every tensor [a] and every concrete integer [g > 0],
    [reduce_group_ndims] calls the operation once, on [a] and on an axis
    tensor whose value is [-g; ...; -1], and returns what that call
    returned; executed, the result is the operation applied to the value of
    [a] over the axes [-g; ...; -1].  (No bound on the rank of [a] is
    needed: what the operation does with an axis that [a] lacks is the
    operation's own business.) *)
Theorem reduce_concrete_positive (op : Operation) (a : Tensor) (g : Z)
    (name : option string) (w : world) :
  0 < g ->
  exists axis w',
    reduce_group_ndims op a (PyInt g) name w = (Ok (TApply op a axis), w') /\
    op_calls w' =
      (op_calls w ++ [{| call_op := op; call_tensor := a; call_axis := axis |}])%list /\
    (forall fd, run fd axis = Done (VArr (map VInt (last_axes g)))) /\
    (forall fd,
       run fd (TApply op a axis) =
       obind (run fd a) (fun va => op_sem op va (last_axes g))).
Proof.
  intros Hg.
  destruct (reduce_concrete_positive_eq op a g name w Hg) as (w' & Hred & Hcalls).
  exists (concrete_axis g), w'. repeat split; try assumption.
  - intros fd. apply run_concrete_axis.
  - intros fd. cbn [run]. fold (concrete_axis g). rewrite run_concrete_axis.
    destruct (run fd a) as [va|e]; [|reflexivity].
    cbn [obind]. now rewrite value_axes_ints.
Qed.

Lemma reduce_concrete_positive_witness :
  0 < 1 /\
  exists axis w',
    reduce_group_ndims reduce_sum example_tensor (PyInt 1) None empty_world =
      (Ok (TApply reduce_sum example_tensor axis), w') /\
    op_calls w' =
      (op_calls empty_world ++
         [{| call_op := reduce_sum; call_tensor := example_tensor;
             call_axis := axis |}])%list /\
    (forall fd, run fd axis = Done (VArr (map VInt (last_axes 1)))) /\
    (forall fd,
       run fd (TApply reduce_sum example_tensor axis) =
       obind (run fd example_tensor)
             (fun va => op_sem reduce_sum va (last_axes 1))).
Proof.
  split; [lia|].
  apply (reduce_concrete_positive reduce_sum example_tensor 1 None empty_world).
  lia.
Defined.

(** The scenario of the specification: the sum of [[1, 2], [3, 4]] over its
    last axis is [3, 7], and with a count of zero the array is returned. *)
Example reduce_sum_scenario :
  match reduce_group_ndims reduce_sum example_tensor (PyInt 1) None empty_world with
  | (Ok r, _) => run [] r = Done (VArr [VInt 3; VInt 7])
  | _ => False
  end.
Proof. reflexivity. Qed.

(** C2.  For every symbolic count of an integer type,
    [reduce_group_ndims] returns a conditional that holds both branches:
    the tensor that the operation returned when it was called, while the
    graph was built, on [a] and on the axes computed from the count, and [a]
    itself.  Executed with the value 0 for the count the conditional yields
    the value of [a]; executed with a value [k > 0] it yields the operation
    applied to the value of [a] over the axes [-k; ...; -1]. *)
Theorem reduce_symbolic_count (op : Operation) (a t : Tensor)
    (name : option string) (w : world) :
  is_integer (dtype_of t) = true ->
  exists pred axis w',
    reduce_group_ndims op a (PyTensor t) name w =
      (Ok (TCond pred (TApply op a axis) a), w') /\
    op_calls w' =
      (op_calls w ++ [{| call_op := op; call_tensor := a; call_axis := axis |}])%list /\
    forall fd k,
      run fd t = Done (VInt k) ->
      (k = 0 -> run fd (TCond pred (TApply op a axis) a) = run fd a) /\
      (0 < k ->
       run fd (TCond pred (TApply op a axis) a) =
       obind (run fd a) (fun va => op_sem op va (last_axes k))).
Proof.
  intros Hdt.
  destruct (reduce_symbolic_eq op a t name w Hdt) as (w' & Hred & Hcalls).
  exists (TGreater (checked_count t) (TConst DT_INT32 (VInt 0))),
    (symbolic_axis t), w'.
  split; [exact Hred|]. split; [exact Hcalls|].
  intros fd k Hk. fold (symbolic_result op a t).
  rewrite (run_symbolic_result op a t fd k Hk). split.
  - intros ->. reflexivity.
  - intros Hpos.
    rewrite (proj2 (Z.ltb_ge k 0)) by lia.
    now rewrite (proj2 (Z.ltb_lt 0 k) Hpos).
Qed.

Lemma reduce_symbolic_count_witness :
  is_integer (dtype_of example_count) = true /\
  exists pred axis w',
    reduce_group_ndims reduce_sum example_tensor (PyTensor example_count) None
      empty_world =
      (Ok (TCond pred (TApply reduce_sum example_tensor axis) example_tensor), w') /\
    op_calls w' =
      (op_calls empty_world ++
         [{| call_op := reduce_sum; call_tensor := example_tensor;
             call_axis := axis |}])%list /\
    forall fd k,
      run fd example_count = Done (VInt k) ->
      (k = 0 ->
       run fd (TCond pred (TApply reduce_sum example_tensor axis) example_tensor) =
       run fd example_tensor) /\
      (0 < k ->
       run fd (TCond pred (TApply reduce_sum example_tensor axis) example_tensor) =
       obind (run fd example_tensor)
             (fun va => op_sem reduce_sum va (last_axes k))).
Proof.
  split; [reflexivity|].
  apply (reduce_symbolic_count reduce_sum example_tensor example_count None
           empty_world).
  reflexivity.
Defined.

Example symbolic_count_scenario :
  match reduce_group_ndims reduce_sum example_tensor (PyTensor example_count)
          None empty_world with
  | (Ok r, _) =>
      run [("group_ndims", VInt 1)] r = Done (VArr [VInt 3; VInt 7]) /\
      run [("group_ndims", VInt 0)] r = run [] example_tensor
  | _ => False
  end.
Proof. vm_compute. split; reflexivity. Qed.

(** C3.  For every tensor [a] and every concrete count that equals zero,
    [reduce_group_ndims] returns [a] itself, and the graph has the same
    nodes after the call as before it: nothing was inserted, and the
    current name scope is the one from before the call. *)
Theorem reduce_concrete_zero (op : Operation) (a : Tensor) (g : pyobj)
    (name : option string) (w : world) :
  py_is_zero g = true ->
  exists w',
    reduce_group_ndims op a g name w = (Ok a, w') /\
    nodes w' = nodes w /\
    inserted w w' = [] /\
    name_stack w' = name_stack w.
Proof.
  intros Hz. destruct (py_is_zero_valid g Hz) as (Hc & Hint & Hneg & Hpos).
  rewrite reduce_concrete_eq by assumption.
  rewrite Hpos. unfold name_scope, ret, inserted. cbn.
  eexists. split; [reflexivity|]. cbn.
  repeat split. apply skipn_all.
Qed.

Lemma reduce_concrete_zero_witness :
  py_is_zero (PyInt 0) = true /\
  exists w',
    reduce_group_ndims reduce_sum (TPlaceholder "a" DT_FLOAT32) (PyInt 0)
      None empty_world = (Ok (TPlaceholder "a" DT_FLOAT32), w') /\
    nodes w' = nodes empty_world /\
    inserted empty_world w' = [] /\
    name_stack w' = name_stack empty_world.
Proof.
  split; [reflexivity|].
  apply (reduce_concrete_zero reduce_sum (TPlaceholder "a" DT_FLOAT32)
           (PyInt 0) None empty_world).
  reflexivity.
Defined.

(** C4.  For every concrete non-negative integer [z],
    [validate_group_ndims] succeeds and returns [z] itself, and it leaves
    the world as it was; the same holds of every concrete number that is
    integral and not negative.  Whenever validation succeeds, what it
    returns is symbolic exactly when its argument is. *)
Theorem validate_concrete_non_negative (z : Z) (name : option string) (w : world) :
  0 <= z ->
  validate_group_ndims (PyInt z) name w = (Ok (PyInt z), w) /\
  (forall g,
     concrete g = true -> py_integral g = true -> py_negative g = false ->
     validate_group_ndims g name w = (Ok g, w)) /\
  (forall g g' w',
     validate_group_ndims g name w = (Ok g', w') ->
     is_tensor_object g' = is_tensor_object g).
Proof.
  intros Hz. repeat split.
  - apply validate_concrete_ok.
    + reflexivity.
    + unfold py_integral, q_integral. cbn. now rewrite Z.mod_1_r.
    + unfold py_negative, q_negative. cbn. apply Z.ltb_ge. exact Hz.
  - intros g. apply validate_concrete_ok.
  - intros g g' w'. apply validate_keeps_kind.
Qed.

Lemma validate_concrete_non_negative_witness :
  0 <= 2 /\
  validate_group_ndims (PyInt 2) None empty_world = (Ok (PyInt 2), empty_world) /\
  (forall g,
     concrete g = true -> py_integral g = true -> py_negative g = false ->
     validate_group_ndims g None empty_world = (Ok g, empty_world)) /\
  (forall g g' w',
     validate_group_ndims g None empty_world = (Ok g', w') ->
     is_tensor_object g' = is_tensor_object g).
Proof.
  split; [lia|].
  apply (validate_concrete_non_negative 2 None empty_world). lia.
Defined.

(** C5.  For every concrete value that is negative or not integral,
    [validate_group_ndims] raises InvalidArgument, and
    [reduce_group_ndims] raises that very exception; both leave the world
    as it was, so that the failure comes before any node is added and
    before the operation is called. *)
Theorem invalid_concrete_rejected (op : Operation) (a : Tensor) (g : pyobj)
    (name name' : option string) (w : world) :
  concrete g = true ->
  py_negative g = true \/ py_integral g = false ->
  exists msg,
    validate_group_ndims g name w = (Raise (InvalidArgument msg), w) /\
    reduce_group_ndims op a g name' w = (Raise (InvalidArgument msg), w).
Proof.
  intros Hc Hbad.
  destruct (validate_concrete_fail g name w Hc Hbad) as [msg Hv].
  exists msg. split; [exact Hv|].
  unfold reduce_group_ndims, bind.
  destruct (validate_concrete_frame g name w Hc) as [<- _].
  now rewrite Hv.
Qed.

Lemma invalid_concrete_rejected_witness :
  concrete (PyFloat (3 # 2)) = true /\
  (py_negative (PyFloat (3 # 2)) = true \/ py_integral (PyFloat (3 # 2)) = false) /\
  exists msg,
    validate_group_ndims (PyFloat (3 # 2)) None empty_world =
      (Raise (InvalidArgument msg), empty_world) /\
    reduce_group_ndims reduce_sum example_tensor (PyFloat (3 # 2)) None empty_world =
      (Raise (InvalidArgument msg), empty_world).
Proof.
  split; [reflexivity|]. split; [right; reflexivity|].
  apply (invalid_concrete_rejected reduce_sum example_tensor (PyFloat (3 # 2))
           None None empty_world).
  - reflexivity.
  - right. reflexivity.
Defined.

Example negative_integer_rejected :
  reduce_group_ndims reduce_sum example_tensor (PyInt (-1)) None empty_world =
    (Raise (InvalidArgument non_negative_message), empty_world).
Proof. reflexivity. Qed.

(** C6.  For every symbolic count of an integer type, building the graph
    with [reduce_group_ndims] succeeds, whatever value the count takes
    later; executing the tensor it returned with a negative value for the
    count fails with the violation of the non-negativity assertion. *)
Theorem symbolic_count_deferred_failure (op : Operation) (a t : Tensor)
    (name : option string) (w : world) :
  is_integer (dtype_of t) = true ->
  exists r w',
    reduce_group_ndims op a (PyTensor t) name w = (Ok r, w') /\
    forall fd k,
      run fd t = Done (VInt k) -> k < 0 ->
      run fd r = Fail (RuntimeAssertionViolated non_negative_message).
Proof.
  intros Hdt.
  destruct (reduce_symbolic_eq op a t name w Hdt) as (w' & Hred & _).
  exists (symbolic_result op a t), w'. split; [exact Hred|].
  intros fd k Hk Hneg.
  rewrite (run_symbolic_result op a t fd k Hk).
  now rewrite (proj2 (Z.ltb_lt k 0) Hneg).
Qed.

Lemma symbolic_count_deferred_failure_witness :
  is_integer (dtype_of example_count) = true /\
  exists r w',
    reduce_group_ndims reduce_sum example_tensor (PyTensor example_count) None
      empty_world = (Ok r, w') /\
    forall fd k,
      run fd example_count = Done (VInt k) -> k < 0 ->
      run fd r = Fail (RuntimeAssertionViolated non_negative_message).
Proof.
  split; [reflexivity|].
  apply (symbolic_count_deferred_failure reduce_sum example_tensor example_count
           None empty_world).
  reflexivity.
Defined.

Example negative_count_fails_when_run :
  match reduce_group_ndims reduce_sum example_tensor (PyTensor example_count)
          None empty_world with
  | (Ok r, _) =>
      run [("group_ndims", VInt (-1))] r =
        Fail (RuntimeAssertionViolated non_negative_message)
  | _ => False
  end.
Proof. vm_compute. reflexivity. Qed.

(** C7.  For every symbolic count whose declared type is not an integer
    type, [validate_group_ndims] raises InvalidArgument while the graph is
    built, and so does [reduce_group_ndims], with the same exception;
    neither adds a node and the operation is not called, so nothing is left
    to fail when the graph executes. *)
Theorem non_integer_tensor_rejected (op : Operation) (a t : Tensor)
    (name name' : option string) (w : world) :
  is_integer (dtype_of t) = false ->
  exists msg w1 w2,
    validate_group_ndims (PyTensor t) name w = (Raise (InvalidArgument msg), w1) /\
    reduce_group_ndims op a (PyTensor t) name' w = (Raise (InvalidArgument msg), w2) /\
    nodes w1 = nodes w /\ nodes w2 = nodes w /\ op_calls w2 = op_calls w.
Proof.
  intros Hdt.
  exists "group_ndims must be an integer tensor",
    (rejected_world name w), (rejected_world None w).
  split; [now apply validate_tensor_fail|].
  split; [|repeat split].
  unfold reduce_group_ndims, bind.
  now rewrite validate_tensor_fail by exact Hdt.
Qed.

Lemma non_integer_tensor_rejected_witness :
  is_integer (dtype_of (TPlaceholder "group_ndims" DT_FLOAT32)) = false /\
  exists msg w1 w2,
    validate_group_ndims (PyTensor (TPlaceholder "group_ndims" DT_FLOAT32))
      None empty_world = (Raise (InvalidArgument msg), w1) /\
    reduce_group_ndims reduce_sum example_tensor
      (PyTensor (TPlaceholder "group_ndims" DT_FLOAT32)) None empty_world =
      (Raise (InvalidArgument msg), w2) /\
    nodes w1 = nodes empty_world /\ nodes w2 = nodes empty_world /\
    op_calls w2 = op_calls empty_world.
Proof.
  split; [reflexivity|].
  apply (non_integer_tensor_rejected reduce_sum example_tensor
           (TPlaceholder "group_ndims" DT_FLOAT32) None None empty_world).
  reflexivity.
Defined.

(** C8, as amended.  For a call of [reduce_group_ndims] without a name or
    with a name that TensorFlow takes as a scope name, every node the call
    adds lies under a named scope, one step below the scope that was
    current.  The nodes come in two runs.  First the nodes of the delegated
    validation, the ones [validate_group_ndims] adds when it is called
    without a name: they lie under a scope named after the validator's own
    default, [validate_group_ndims], whatever name the caller gave, since
    the name is not passed on; for a symbolic count of an integer type the
    assertion is among them, for a concrete count there are none.  Then the
    nodes of the reduction: they lie under a scope named after the caller's
    name, or after the default [reduce_group_ndims] when the caller gave
    none, and the node of the operation is among them whenever the
    operation was called.  The nodes that were in the graph stay, and the
    current scope is the one from before the call. *)
Theorem reduce_nodes_scoped (op : Operation) (a : Tensor) (g : pyobj)
    (name : option string) (w : world) :
  accepted_name name = true ->
  let w1 := snd (validate_group_ndims g None w) in
  let w' := snd (reduce_group_ndims op a g name w) in
  exists vs rs,
    scope_named "validate_group_ndims" vs /\
    scope_named (scope_name name "reduce_group_ndims") rs /\
    nodes w' = (nodes w ++ inserted w w1 ++ inserted w1 w')%list /\
    inserted w w' = (inserted w w1 ++ inserted w1 w')%list /\
    Forall (fun n => under_scope (name_stack w ++ [vs])%list n = true)
           (inserted w w1) /\
    Forall (fun n => under_scope (name_stack w ++ [rs])%list n = true)
           (inserted w1 w') /\
    (forall t, g = PyTensor t -> is_integer (dtype_of t) = true ->
               exists n, In n (inserted w w1) /\ node_type n = "Assert") /\
    (concrete g = true -> inserted w w1 = []) /\
    (op_calls w' <> op_calls w ->
     exists n, In n (inserted w1 w') /\ node_type n = op_name op) /\
    name_stack w' = name_stack w.
Proof.
  intros _. cbv zeta.
  destruct (validate_nodes g None w) as (Hstack & checks & Hnodes & Hunder & Hnone).
  destruct (unique_name_named w "validate_group_ndims") as (vs & Hvs & Hvscope).
  destruct (unique_name_named (snd (validate_group_ndims g None w))
              (scope_name name "reduce_group_ndims")) as (rs & Hrs & Hrscope).
  rewrite Hstack in Hrscope.
  assert (Hrest : exists rest,
            nodes (snd (reduce_group_ndims op a g name w)) =
              (nodes (snd (validate_group_ndims g None w)) ++ rest)%list /\
            Forall (fun n =>
                      under_scope
                        (unique_name (snd (validate_group_ndims g None w))
                           (scope_name name "reduce_group_ndims")) n = true)
                   rest /\
            name_stack (snd (reduce_group_ndims op a g name w)) =
              name_stack (snd (validate_group_ndims g None w))).
  { clear. remember (reduce_group_ndims op a g name w) as res eqn:Hres.
    unfold reduce_group_ndims in Hres. unfold bind at 1 in Hres.
    destruct (validate_group_ndims g None w) as [[g'|e] w1]; cbn [snd]; subst res.
    - match goal with
      | |- context [name_scope name ?d ?body w1] =>
          assert (Hbody : scoped body)
      end.
      { destruct (is_tensor_object g').
        - scoped_steps. apply scoped_tf_cond; scoped_steps.
        - scoped_steps.
          match goal with b : bool |- _ => destruct b end; scoped_steps. }
      destruct (name_scope_under name "reduce_group_ndims" _ w1 Hbody)
        as (Hstack' & rest & Hnodes' & Hunder').
      now exists rest.
    - exists []. cbn [snd]. rewrite app_nil_r. repeat split. constructor. }
  destruct Hrest as (rest & Hnodes' & Hunder' & Hstack').
  cbn [scope_name] in Hunder. rewrite Hvscope in Hunder.
  rewrite Hrscope in Hunder'.
  rewrite (inserted_app _ _ _ Hnodes), (inserted_app _ _ _ Hnodes').
  assert (Hall : nodes (snd (reduce_group_ndims op a g name w)) =
                   (nodes w ++ checks ++ rest)%list)
    by now rewrite Hnodes', Hnodes, app_assoc.
  exists vs, rs.
  split; [exact Hvs|]. split; [exact Hrs|]. split; [exact Hall|].
  split; [now apply inserted_app|].
  split; [exact Hunder|]. split; [exact Hunder'|].
  split; [|split; [exact Hnone|split; [|congruence]]].
  - intros t -> Hdt.
    destruct (validate_assert_node t None w Hdt) as (n & Hin & Htype).
    rewrite (inserted_app _ _ _ Hnodes) in Hin. now exists n.
  - intros Hcalled.
    destruct (reduce_operation_node op a g name w) as [Hsame|(n & Hin & Htype)];
      [now destruct Hcalled|].
    rewrite (inserted_app _ _ _ Hnodes') in Hin. now exists n.
Qed.

Lemma reduce_nodes_scoped_witness :
  accepted_name (Some "my_scope") = true /\
  let g := PyTensor example_count in
  let w1 := snd (validate_group_ndims g None empty_world) in
  let w' := snd (reduce_group_ndims reduce_sum example_tensor g (Some "my_scope")
                   empty_world) in
  exists vs rs,
    scope_named "validate_group_ndims" vs /\
    scope_named (scope_name (Some "my_scope") "reduce_group_ndims") rs /\
    nodes w' = (nodes empty_world ++ inserted empty_world w1 ++ inserted w1 w')%list /\
    inserted empty_world w' = (inserted empty_world w1 ++ inserted w1 w')%list /\
    Forall (fun n => under_scope (name_stack empty_world ++ [vs])%list n = true)
           (inserted empty_world w1) /\
    Forall (fun n => under_scope (name_stack empty_world ++ [rs])%list n = true)
           (inserted w1 w') /\
    (forall t, g = PyTensor t -> is_integer (dtype_of t) = true ->
               exists n, In n (inserted empty_world w1) /\ node_type n = "Assert") /\
    (concrete g = true -> inserted empty_world w1 = []) /\
    (op_calls w' <> op_calls empty_world ->
     exists n, In n (inserted w1 w') /\ node_type n = op_name reduce_sum) /\
    name_stack w' = name_stack empty_world.
Proof.
  split; [reflexivity|].
  apply (reduce_nodes_scoped reduce_sum example_tensor (PyTensor example_count)
           (Some "my_scope") empty_world).
  reflexivity.
Defined.

(** C8, as stated, fails: with the caller's name [my_scope] and a symbolic
    count, the assertion of the validation is added under the scope
    [validate_group_ndims], outside the scope of the caller's name. *)
Lemma reduce_scope_counterexample :
  ~ all_under_callers_scope reduce_sum example_tensor (PyTensor example_count)
      "my_scope" empty_world.
Proof.
  intros H.
  specialize (H {| node_scope := ["validate_group_ndims"]; node_type := "Assert" |}).
  assert (Hin : In {| node_scope := ["validate_group_ndims"]; node_type := "Assert" |}
                   (inserted empty_world
                      (snd (reduce_group_ndims reduce_sum example_tensor
                              (PyTensor example_count) (Some "my_scope")
                              empty_world))))
    by (vm_compute; left; reflexivity).
  specialize (H Hin). vm_compute in H. discriminate H.
Qed.

Example validation_scope_with_callers_name :
  map node_scope
      (nodes (snd (reduce_group_ndims reduce_sum example_tensor
                     (PyTensor example_count) (Some "my_scope") empty_world))) =
    [["validate_group_ndims"]; ["validate_group_ndims"];
     ["my_scope"]; ["my_scope"];
     ["my_scope"; "cond"]; ["my_scope"; "cond"];
     ["my_scope"; "cond"; "range"]; ["my_scope"; "cond"; "range"];
     ["my_scope"; "cond"]; ["my_scope"; "cond"]].
Proof. vm_compute. reflexivity. Qed.

(** C9.  For every concrete argument, [validate_group_ndims] leaves the
    world as it was (no name scope is entered, no node is added), and what
    it returns does not depend on the name it is given. *)
Theorem validate_concrete_no_effect (g : pyobj) (n1 n2 : option string) (w : world) :
  concrete g = true ->
  snd (validate_group_ndims g n1 w) = w /\
  validate_group_ndims g n1 w = validate_group_ndims g n2 w.
Proof.
  intros Hc.
  destruct (validate_concrete_frame g n1 w Hc) as [H1 Hw].
  destruct (validate_concrete_frame g n2 w Hc) as [H2 _].
  split; [exact Hw|congruence].
Qed.

Lemma validate_concrete_no_effect_witness :
  concrete (PyInt 3) = true /\
  snd (validate_group_ndims (PyInt 3) (Some "check") empty_world) = empty_world /\
  validate_group_ndims (PyInt 3) (Some "check") empty_world =
  validate_group_ndims (PyInt 3) None empty_world.
Proof.
  split; [reflexivity|].
  apply (validate_concrete_no_effect (PyInt 3) (Some "check") None empty_world).
  reflexivity.
Defined.

(** C10.  For every tensor [a], every operation and every concrete count
    that equals zero, [reduce_group_ndims] does not call the operation: the
    trace of its calls is the one from before, and the call returns the same
    result and leaves the same world whatever the operation is. *)
Theorem reduce_concrete_zero_no_call (op : Operation) (a : Tensor) (g : pyobj)
    (name : option string) (w : world) :
  py_is_zero g = true ->
  op_calls (snd (reduce_group_ndims op a g name w)) = op_calls w /\
  forall op', reduce_group_ndims op' a g name w = reduce_group_ndims op a g name w.
Proof.
  intros Hz. destruct (py_is_zero_valid g Hz) as (Hc & Hint & Hneg & Hpos).
  split; [|intros op']; rewrite !reduce_concrete_eq by assumption;
    rewrite Hpos; reflexivity.
Qed.

Lemma reduce_concrete_zero_no_call_witness :
  py_is_zero (PyInt 0) = true /\
  op_calls (snd (reduce_group_ndims reduce_sum example_tensor (PyInt 0) None
                   empty_world)) = op_calls empty_world /\
  forall op',
    reduce_group_ndims op' example_tensor (PyInt 0) None empty_world =
    reduce_group_ndims reduce_sum example_tensor (PyInt 0) None empty_world.
Proof.
  split; [reflexivity|].
  apply (reduce_concrete_zero_no_call reduce_sum example_tensor (PyInt 0) None
           empty_world).
  reflexivity.
Defined.

(** ** setup.py: splitting into lines and stripping *)

Local Open Scope list_scope.

Lemma split_not_nil (sep : N) (s : text) : split sep s <> [].
Proof.
  destruct s as [|c rest]; cbn; [discriminate|].
  destruct (c =? sep)%N; [discriminate|].
  destruct (split sep rest); discriminate.
Qed.

Lemma split_app (sep : N) (s1 s2 : text) :
  split sep (s1 ++ sep :: s2) = (split sep s1 ++ split sep s2)%list.
Proof.
  induction s1 as [|c s1 IH]; cbn.
  - now rewrite N.eqb_refl.
  - destruct (c =? sep)%N; [now rewrite IH|].
    rewrite IH.
    destruct (split sep s1) as [|piece pieces] eqn:Hs1; [|reflexivity].
    now destruct (split_not_nil sep s1).
Qed.

Lemma split_without_sep (sep : N) (s : text) :
  ~ In sep s -> split sep s = [s].
Proof.
  induction s as [|c s IH]; cbn; [reflexivity|].
  intros Hnot.
  destruct (N.eqb_spec c sep) as [->|Hne]; [now destruct Hnot; left|].
  rewrite IH; [reflexivity|]. intros Hin. apply Hnot. now right.
Qed.

Lemma split_pieces_without_sep (sep : N) (s piece : text) :
  In piece (split sep s) -> ~ In sep piece.
Proof.
  revert piece. induction s as [|c s IH]; cbn; intros piece.
  - intros [<-|[]] [].
  - destruct (N.eqb_spec c sep) as [->|Hne].
    + intros [<-|Hin]; [intros []|now apply IH].
    + destruct (split sep s) as [|first pieces]; cbn.
      * intros [<-|[]] [Heq|[]]. now apply Hne.
      * intros [<-|Hin].
        -- intros [Heq|Hin]; [now apply Hne|].
           apply (IH first); [now left|exact Hin].
        -- apply IH. now right.
Qed.

Section Stripping.

Variable is_space : N -> bool.

Lemma lstrip_spaces (pre s : text) :
  all_spaces is_space pre -> lstrip is_space (pre ++ s) = lstrip is_space s.
Proof.
  induction 1 as [|c pre Hc _ IH]; cbn; [reflexivity|].
  now rewrite Hc.
Qed.

Lemma lstrip_all_spaces (s : text) :
  all_spaces is_space s -> lstrip is_space s = [].
Proof.
  intros H. rewrite <- (app_nil_r s). now rewrite lstrip_spaces.
Qed.

(** What [lstrip] drops is whitespace. *)
Lemma lstrip_decompose (s : text) :
  exists pre, s = (pre ++ lstrip is_space s)%list /\ all_spaces is_space pre.
Proof.
  induction s as [|c s (pre & Heq & Hpre)]; cbn.
  - exists []. split; [reflexivity|constructor].
  - destruct (is_space c) eqn:Hc.
    + exists (c :: pre). split; [cbn; now f_equal|now constructor].
    + exists []. split; [reflexivity|constructor].
Qed.

Lemma lstrip_head (s : text) (c : N) :
  first_char (lstrip is_space s) = Some c -> is_space c = false.
Proof.
  induction s as [|d s IH]; cbn; [discriminate|].
  destruct (is_space d) eqn:Hd; [exact IH|].
  cbn. now intros [= <-].
Qed.

Lemma lstrip_fixed (s : text) :
  (forall c, first_char s = Some c -> is_space c = false) ->
  lstrip is_space s = s.
Proof.
  destruct s as [|c s]; cbn; [reflexivity|].
  intros H. now rewrite (H c eq_refl).
Qed.

Lemma lstrip_app (s t : text) :
  lstrip is_space s <> [] ->
  lstrip is_space (s ++ t) = (lstrip is_space s ++ t)%list.
Proof.
  induction s as [|c s IH]; cbn; [now intros []|].
  destruct (is_space c); [exact IH|reflexivity].
Qed.

Lemma all_spaces_rev (s : text) : all_spaces is_space s -> all_spaces is_space (rev s).
Proof. apply Forall_rev. Qed.

(** What [strip] drops, on either side, is whitespace. *)
Lemma strip_decompose (s : text) :
  exists pre post,
    s = (pre ++ strip is_space s ++ post)%list /\
    all_spaces is_space pre /\ all_spaces is_space post.
Proof.
  destruct (lstrip_decompose s) as (pre & Hs & Hpre).
  destruct (lstrip_decompose (rev (lstrip is_space s))) as (tsop & Hr & Htsop).
  exists pre, (rev tsop). repeat split.
  - rewrite Hs at 1. f_equal.
    apply (f_equal (@rev N)) in Hr. rewrite rev_involutive, rev_app_distr in Hr.
    exact Hr.
  - exact Hpre.
  - now apply all_spaces_rev.
Qed.

Lemma strip_fixed (s : text) :
  (forall c, first_char s = Some c -> is_space c = false) ->
  (forall c, last_char s = Some c -> is_space c = false) ->
  strip is_space s = s.
Proof.
  intros Hfirst Hlast. unfold strip, rstrip.
  rewrite (lstrip_fixed s Hfirst), (lstrip_fixed (rev s) Hlast).
  apply rev_involutive.
Qed.

Lemma strip_first (s : text) (c : N) :
  first_char (strip is_space s) = Some c -> is_space c = false.
Proof.
  intros Hc.
  destruct (lstrip_decompose (rev (lstrip is_space s))) as (tsop & Hr & _).
  apply (f_equal (@rev N)) in Hr. rewrite rev_involutive, rev_app_distr in Hr.
  fold (rstrip is_space (lstrip is_space s)) in Hr. fold (strip is_space s) in Hr.
  apply (lstrip_head s). rewrite Hr.
  destruct (strip is_space s); [discriminate|exact Hc].
Qed.

Lemma strip_last (s : text) (c : N) :
  last_char (strip is_space s) = Some c -> is_space c = false.
Proof.
  unfold last_char, strip, rstrip. rewrite rev_involutive.
  apply lstrip_head.
Qed.

Lemma strip_spaces (pre s post : text) :
  all_spaces is_space pre -> all_spaces is_space post ->
  strip is_space (pre ++ s ++ post) = strip is_space s.
Proof.
  intros Hpre Hpost. unfold strip. rewrite (lstrip_spaces pre) by exact Hpre.
  destruct (lstrip is_space s) as [|c l] eqn:Hl.
  - destruct (lstrip_decompose s) as (ws & Hs & Hws).
    rewrite Hl, app_nil_r in Hs. subst ws.
    rewrite lstrip_all_spaces; [reflexivity|].
    apply Forall_app. now split.
  - rewrite lstrip_app by (rewrite Hl; discriminate). rewrite Hl.
    unfold rstrip. rewrite rev_app_distr.
    now rewrite lstrip_spaces by now apply all_spaces_rev.
Qed.

Lemma strip_incl (s : text) (c : N) : In c (strip is_space s) -> In c s.
Proof.
  intros Hin. destruct (strip_decompose s) as (pre & post & Hs & _).
  rewrite Hs. apply in_or_app. right. apply in_or_app. now left.
Qed.

End Stripping.

(** ** setup.py: the requirements *)

Section Requirements.

Variable is_space : N -> bool.

(** A file of one line gives the line stripped, or nothing. *)
Lemma requirements_list_line (l : text) :
  ~ In newline l ->
  requirements_list is_space l =
    if is_requirement (strip is_space l) then [strip is_space l] else [].
Proof.
  intros Hl. unfold requirements_list.
  rewrite split_without_sep by exact Hl. reflexivity.
Qed.

Lemma requirements_list_app (t1 t2 : text) :
  requirements_list is_space (t1 ++ newline :: t2) =
    requirements_list is_space t1 ++ requirements_list is_space t2.
Proof.
  unfold requirements_list. now rewrite split_app, map_app, filter_app.
Qed.

Lemma requirements_list_settled (content v : text) :
  In v (requirements_list is_space content) -> settled is_space v.
Proof.
  unfold requirements_list. intros [Hin Hkeep]%filter_In.
  apply in_map_iff in Hin as (piece & <- & Hpiece).
  repeat split.
  - exact Hkeep.
  - intros Hnl%strip_incl. now apply (split_pieces_without_sep newline content piece).
  - apply strip_first.
  - apply strip_last.
Qed.

Lemma requirements_list_join (entries : list text) :
  Forall (settled is_space) entries ->
  requirements_list is_space (join newline entries) = entries.
Proof.
  induction 1 as [|v rest (Hkeep & Hnl & Hfirst & Hlast) Hrest IH]; [reflexivity|].
  assert (Hv : requirements_list is_space v = [v]).
  { rewrite requirements_list_line by exact Hnl.
    now rewrite (strip_fixed is_space v Hfirst Hlast), Hkeep. }
  destruct rest as [|v' rest]; [exact Hv|].
  change (join newline (v :: v' :: rest))
    with (v ++ newline :: join newline (v' :: rest)).
  now rewrite requirements_list_app, Hv, IH.
Qed.

End Requirements.

(** ** Properties of setup.py *)

(** X1.  Every entry of [requirements_list] is a line of the file,
    stripped: it is not empty, it does not start with [#], it holds no
    line break, and it neither starts nor ends with whitespace. *)
Theorem requirements_are_stripped_lines
    (is_space : N -> bool) (content v : text) :
  In v (requirements_list is_space content) ->
  (exists line, In line (split newline content) /\ v = strip is_space line) /\
  v <> [] /\
  startswith [hash] v = false /\
  ~ In newline v /\
  (forall c, first_char v = Some c -> is_space c = false) /\
  (forall c, last_char v = Some c -> is_space c = false).
Proof.
  intros Hin.
  destruct (requirements_list_settled is_space content v Hin)
    as (Hkeep & Hnl & Hfirst & Hlast).
  split; [|split; [|split]]; try (repeat split; assumption).
  - unfold requirements_list in Hin. apply filter_In in Hin as [Hin _].
    apply in_map_iff in Hin as (line & <- & Hline). now exists line.
  - intros ->. discriminate Hkeep.
  - destruct v as [|c v]; [discriminate Hkeep|].
    unfold is_requirement in Hkeep. now apply negb_true_iff.
Qed.

Lemma requirements_are_stripped_lines_witness :
  let content := text_of_string "  six  " in
  let v := text_of_string "six" in
  In v (requirements_list bytes_isspace content) /\
  ((exists line, In line (split newline content) /\ v = strip bytes_isspace line) /\
   v <> [] /\
   startswith [hash] v = false /\
   ~ In newline v /\
   (forall c, first_char v = Some c -> bytes_isspace c = false) /\
   (forall c, last_char v = Some c -> bytes_isspace c = false)).
Proof.
  split; [left; reflexivity|].
  apply (requirements_are_stripped_lines bytes_isspace
           (text_of_string "  six  ") (text_of_string "six")).
  left. reflexivity.
Defined.

(** X2.  The file is read line by line: the requirements of two texts
    joined by a line break are the requirements of the first followed by
    those of the second, and so are the dependency links and the
    requirements to install. *)
Theorem requirements_line_by_line (is_space : N -> bool) (t1 t2 : text) :
  let all := requirements_list is_space (t1 ++ newline :: t2) in
  let r1 := requirements_list is_space t1 in
  let r2 := requirements_list is_space t2 in
  all = r1 ++ r2 /\
  dependency_links all = dependency_links r1 ++ dependency_links r2 /\
  install_requires all = install_requires r1 ++ install_requires r2.
Proof.
  cbv zeta. rewrite requirements_list_app.
  unfold dependency_links, install_requires.
  now rewrite !filter_app.
Qed.

(** X3.  A line that is blank or a comment, whitespace before the [#]
    allowed, changes nothing, be it the first line, the last or one in
    between. *)
Theorem comments_and_blank_lines_ignored
    (is_space : N -> bool) (l before after : text) :
  ~ In newline l ->
  strip is_space l = [] \/ startswith [hash] (strip is_space l) = true ->
  requirements_list is_space (l ++ newline :: after) =
    requirements_list is_space after /\
  requirements_list is_space (before ++ newline :: l) =
    requirements_list is_space before /\
  requirements_list is_space (before ++ newline :: l ++ newline :: after) =
    requirements_list is_space (before ++ newline :: after).
Proof.
  intros Hl Hskip.
  assert (Hnone : requirements_list is_space l = []).
  { rewrite requirements_list_line by exact Hl.
    destruct Hskip as [->|Hhash]; [reflexivity|].
    unfold is_requirement. destruct (strip is_space l); [reflexivity|].
    now rewrite Hhash. }
  rewrite !requirements_list_app, Hnone. cbn [app].
  now rewrite app_nil_r.
Qed.

Lemma comments_and_blank_lines_ignored_witness :
  let l := text_of_string "   # testing" in
  let before := text_of_string "six" in
  let after := text_of_string "numpy" in
  ~ In newline l /\
  (strip bytes_isspace l = [] \/ startswith [hash] (strip bytes_isspace l) = true) /\
  (requirements_list bytes_isspace (l ++ newline :: after) =
     requirements_list bytes_isspace after /\
   requirements_list bytes_isspace (before ++ newline :: l) =
     requirements_list bytes_isspace before /\
   requirements_list bytes_isspace (before ++ newline :: l ++ newline :: after) =
     requirements_list bytes_isspace (before ++ newline :: after)).
Proof.
  assert (Hl : ~ In newline (text_of_string "   # testing")).
  { cbn. intros H. repeat (destruct H as [H|H]; [discriminate H|]). exact H. }
  split; [exact Hl|]. split; [right; reflexivity|].
  apply (comments_and_blank_lines_ignored bytes_isspace
           (text_of_string "   # testing") (text_of_string "six")
           (text_of_string "numpy")).
  - exact Hl.
  - right. reflexivity.
Defined.

(** X4.  Whitespace before and after a requirement does not matter: a
    line gives the same requirements with it as without it. *)
Theorem surrounding_whitespace_ignored
    (is_space : N -> bool) (pre l post : text) :
  all_spaces is_space pre -> all_spaces is_space post ->
  ~ In newline (pre ++ l ++ post) ->
  requirements_list is_space (pre ++ l ++ post) = requirements_list is_space l.
Proof.
  intros Hpre Hpost Hnl.
  assert (Hl : ~ In newline l).
  { intros Hin. apply Hnl. apply in_or_app. right. apply in_or_app. now left. }
  rewrite !requirements_list_line by assumption.
  now rewrite strip_spaces.
Qed.

Lemma surrounding_whitespace_ignored_witness :
  let pre := text_of_string "  " in
  let l := text_of_string "numpy >= 1.12.1" in
  let post := text_of_string " " in
  all_spaces bytes_isspace pre /\
  all_spaces bytes_isspace post /\
  ~ In newline (pre ++ l ++ post) /\
  requirements_list bytes_isspace (pre ++ l ++ post) =
    requirements_list bytes_isspace l.
Proof.
  assert (Hpre : all_spaces bytes_isspace (text_of_string "  "))
    by (repeat constructor).
  assert (Hpost : all_spaces bytes_isspace (text_of_string " "))
    by (repeat constructor).
  assert (Hnl : ~ In newline
                  (text_of_string "  " ++ text_of_string "numpy >= 1.12.1" ++
                   text_of_string " ")).
  { cbn. intros H. repeat (destruct H as [H|H]; [discriminate H|]). exact H. }
  split; [exact Hpre|]. split; [exact Hpost|]. split; [exact Hnl|].
  exact (surrounding_whitespace_ignored bytes_isspace (text_of_string "  ")
           (text_of_string "numpy >= 1.12.1") (text_of_string " ")
           Hpre Hpost Hnl).
Defined.

(** X5.  Writing the requirements out, one to a line, and reading them
    again gives the same requirements: what [requirements_list] returns is
    a file of its own that it leaves as it is. *)
Theorem requirements_round_trip (is_space : N -> bool) (content : text) :
  requirements_list is_space
    (join newline (requirements_list is_space content)) =
  requirements_list is_space content.
Proof.
  apply requirements_list_join.
  apply Forall_forall. intros v. apply requirements_list_settled.
Qed.

(** X6.  [dependency_links] and [install_requires] share the requirements
    out between them: together they hold every requirement as often as the
    list does, the entries of the first are the requirements that start
    with [git+] and those of the second are the ones that do not. *)
Theorem requirements_partition (requirements : list text) :
  Permutation requirements
    (dependency_links requirements ++ install_requires requirements) /\
  (List.length (dependency_links requirements) +
     List.length (install_requires requirements) =
   List.length requirements)%nat /\
  (forall v, In v (dependency_links requirements) <->
             In v requirements /\ startswith git_plus v = true) /\
  (forall v, In v (install_requires requirements) <->
             In v requirements /\ startswith git_plus v = false).
Proof.
  assert (Hperm : Permutation requirements
            (dependency_links requirements ++ install_requires requirements)).
  { unfold dependency_links, install_requires.
    induction requirements as [|v rest IH]; cbn [filter app]; [constructor|].
    destruct (startswith git_plus v); cbn [negb app].
    - apply perm_skip. exact IH.
    - apply Permutation_cons_app. exact IH. }
  split; [exact Hperm|]. split; [|split].
  - rewrite <- length_app. symmetry. now apply Permutation_length.
  - intros v. unfold dependency_links. apply filter_In.
  - intros v. unfold install_requires. rewrite filter_In.
    now rewrite negb_true_iff.
Qed.

(** ** More on the reduction *)

Local Open Scope Z_scope.

(** The tensor and the calls of the operation for a concrete count that
    passed validation. *)
Lemma reduce_concrete_result (op : Operation) (a : Tensor) (g : pyobj)
    (name : option string) (w : world) :
  concrete g = true -> py_integral g = true -> py_negative g = false ->
  fst (reduce_group_ndims op a g name w) = Ok (concrete_result op a g) /\
  op_calls (snd (reduce_group_ndims op a g name w)) =
    if py_positive g then
      op_calls w ++
        [{| call_op := op; call_tensor := a;
            call_axis := TRange (negated_constant g) (TConst DT_INT32 (VInt 0)) |}]
    else op_calls w.
Proof.
  intros Hc Hint Hneg.
  rewrite reduce_concrete_eq by assumption.
  unfold concrete_result.
  destruct (py_positive g); [|split; reflexivity].
  destruct g as [z|q|b|t]; try discriminate; build_graph; split; reflexivity.
Qed.

Lemma run_concrete_result (op : Operation) (a : Tensor) (fd : feed) (k : Z) :
  run fd (concrete_result op a (PyInt k)) =
    if 0 <? k then obind (run fd a) (fun va => op_sem op va (last_axes k))
    else run fd a.
Proof.
  unfold concrete_result, py_positive. cbn [number_of inject_Z Qnum negated_constant].
  destruct (0 <? k); [|reflexivity].
  cbn [run obind value_range]. rewrite zrange_neg_last_axes.
  destruct (run fd a) as [va|e]; [|reflexivity].
  cbn [obind]. now rewrite value_axes_ints.
Qed.

Lemma integer_valid (k : Z) :
  0 <= k ->
  concrete (PyInt k) = true /\ py_integral (PyInt k) = true /\
  py_negative (PyInt k) = false.
Proof.
  intros Hk. repeat split.
  - unfold py_integral, q_integral. cbn. now rewrite Z.mod_1_r.
  - unfold py_negative, q_negative. cbn. now apply Z.ltb_ge.
Qed.



(** X7.  A symbolic count and a concrete one agree.  Take the graph built
    for the concrete count [k] and the graph built for a symbolic count,
    both of them built, that is, with the operation having accepted its
    arguments each time.  If the first runs to a value (so [k] is a count
    that the operation can reduce the tensor by), the second, with the
    symbolic count fed the integer [k], runs to that value. *)
Theorem symbolic_agrees_with_concrete (op : Operation) (a t : Tensor)
    (name name' : option string) (w w0 : world) (fd : feed) (k : Z)
    (r r' : Tensor) (v : value) :
  run fd t = Done (VInt k) ->
  fst (reduce_group_ndims op a (PyTensor t) name w) = Ok r ->
  fst (reduce_group_ndims op a (PyInt k) name' w0) = Ok r' ->
  run fd r' = Done v ->
  run fd r = Done v.
Proof.
  intros Hrun Hsym Hcon Hvalue.
  assert (Hk : 0 <= k).
  { destruct (Z.le_gt_cases 0 k) as [Hk|Hk]; [exact Hk|].
    assert (Hneg : py_negative (PyInt k) = true)
      by (unfold py_negative, q_negative; cbn; apply Z.ltb_lt; lia).
    destruct (validate_concrete_fail (PyInt k) None w0 eq_refl (or_introl Hneg))
      as [msg Hv].
    rewrite (reduce_propagates op a (PyInt k) name' w0 _ _ Hv) in Hcon.
    discriminate Hcon. }
  destruct (is_integer (dtype_of t)) eqn:Hdt.
  - destruct (reduce_symbolic_eq op a t name w Hdt) as (w' & Hr & _).
    rewrite Hr in Hsym. cbn [fst] in Hsym. injection Hsym as <-.
    destruct (integer_valid k Hk) as (Hc & Hint & Hneg).
    destruct (reduce_concrete_result op a (PyInt k) name' w0 Hc Hint Hneg) as [Hr' _].
    rewrite Hr' in Hcon. injection Hcon as <-.
    rewrite (run_symbolic_result op a t fd k Hrun).
    rewrite run_concrete_result in Hvalue.
    now rewrite (proj2 (Z.ltb_ge k 0)) by lia.
  - rewrite (reduce_propagates op a (PyTensor t) name w _ _
               (validate_tensor_fail t None w Hdt)) in Hsym.
    discriminate Hsym.
Qed.

Lemma symbolic_agrees_with_concrete_witness :
  let fd := [("group_ndims", VInt 1)] in
  let r := symbolic_result reduce_sum example_tensor example_count in
  let r' := concrete_result reduce_sum example_tensor (PyInt 1) in
  let v := VArr [VInt 3; VInt 7] in
  run fd example_count = Done (VInt 1) /\
  fst (reduce_group_ndims reduce_sum example_tensor (PyTensor example_count)
         None empty_world) = Ok r /\
  fst (reduce_group_ndims reduce_sum example_tensor (PyInt 1) None empty_world) =
    Ok r' /\
  run fd r' = Done v /\
  run fd r = Done v.
Proof.
  split; [reflexivity|]. split; [reflexivity|]. split; [reflexivity|].
  split; [reflexivity|].
  apply (symbolic_agrees_with_concrete reduce_sum example_tensor example_count
           None None empty_world empty_world [("group_ndims", VInt 1)] 1
           (symbolic_result reduce_sum example_tensor example_count)
           (concrete_result reduce_sum example_tensor (PyInt 1))).
  - reflexivity.
  - reflexivity.
  - reflexivity.
  - reflexivity.
Defined.

(** Every call of [reduce_group_ndims] goes one of two ways. *)
Lemma reduce_cases (op : Operation) (a : Tensor) (g : pyobj)
    (name : option string) (w : world) :
  (exists msg w1,
     validate_group_ndims g None w = (Raise (InvalidArgument msg), w1) /\
     reduce_group_ndims op a g name w = (Raise (InvalidArgument msg), w1) /\
     op_calls w1 = op_calls w) \/
  (exists r,
     fst (reduce_group_ndims op a g name w) = Ok r /\
     (op_calls (snd (reduce_group_ndims op a g name w)) = op_calls w \/
      exists axis,
        op_calls (snd (reduce_group_ndims op a g name w)) =
          op_calls w ++
            [{| call_op := op; call_tensor := a; call_axis := axis |}])).
Proof.
  destruct (concrete g) eqn:Hc.
  - destruct (py_integral g) eqn:Hint; [destruct (py_negative g) eqn:Hneg|].
    + left. destruct (validate_concrete_fail g None w Hc (or_introl Hneg)) as [msg Hv].
      exists msg, w. repeat split; [exact Hv|now apply reduce_propagates].
    + right. destruct (reduce_concrete_result op a g name w Hc Hint Hneg) as [Hr Hcalls].
      eexists. split; [exact Hr|]. rewrite Hcalls.
      destruct (py_positive g); [right; eexists; reflexivity|now left].
    + left. destruct (validate_concrete_fail g None w Hc (or_intror Hint)) as [msg Hv].
      exists msg, w. repeat split; [exact Hv|now apply reduce_propagates].
  - destruct g as [z|q|b|t]; try discriminate.
    destruct (is_integer (dtype_of t)) eqn:Hdt.
    + right. destruct (reduce_symbolic_eq op a t name w Hdt) as (w' & Hr & Hcalls).
      rewrite Hr. eexists. split; [reflexivity|]. right. eexists. exact Hcalls.
    + left. eexists _, (rejected_world None w).
      split; [now apply validate_tensor_fail|].
      split; [|reflexivity].
      apply reduce_propagates. now apply validate_tensor_fail.
Qed.

(** X8.  Whatever the count, [reduce_group_ndims] calls the operation at
    most once, and when it calls it, it is on the tensor it was given. *)
Theorem operation_called_at_most_once (op : Operation) (a : Tensor) (g : pyobj)
    (name : option string) (w : world) :
  op_calls (snd (reduce_group_ndims op a g name w)) = op_calls w \/
  exists axis,
    op_calls (snd (reduce_group_ndims op a g name w)) =
      op_calls w ++ [{| call_op := op; call_tensor := a; call_axis := axis |}].
Proof.
  destruct (reduce_cases op a g name w)
    as [(msg & w1 & _ & Hr & Hcalls)|(r & _ & Hcalls)].
  - left. now rewrite Hr.
  - exact Hcalls.
Qed.



(** X11.  Called on its own, [validate_group_ndims] honours the name of
    its caller.  For a symbolic argument, and no name or a name that
    TensorFlow takes as a scope name, every node it adds lies under one
    scope, one step below the scope that was current and named after the
    caller's name, or after [validate_group_ndims] when there is none.  For
    an argument of an integer type the assertion is among the nodes; for
    another type nothing is added.  It calls no operation, and the current
    scope is the one from before, also when it raises. *)
Theorem validate_symbolic_enters_scope (t : Tensor) (name : option string)
    (w : world) :
  accepted_name name = true ->
  let w' := snd (validate_group_ndims (PyTensor t) name w) in
  name_stack w' = name_stack w /\
  op_calls w' = op_calls w /\
  (exists s,
     scope_named (scope_name name "validate_group_ndims") s /\
     Forall (fun n => under_scope (name_stack w ++ [s]) n = true)
            (inserted w w')) /\
  (is_integer (dtype_of t) = true ->
   exists n, In n (inserted w w') /\ node_type n = "Assert") /\
  (is_integer (dtype_of t) = false -> inserted w w' = []).
Proof.
  intros _. cbv zeta.
  destruct (validate_nodes (PyTensor t) name w)
    as (Hstack & checks & Hnodes & Hunder & _).
  destruct (unique_name_named w (scope_name name "validate_group_ndims"))
    as (s & Hs & Hscope).
  rewrite Hscope in Hunder.
  split; [exact Hstack|]. split; [|split; [|split]].
  - destruct (is_integer (dtype_of t)) eqn:Hdt.
    + now rewrite validate_tensor_ok by exact Hdt.
    + now rewrite validate_tensor_fail by exact Hdt.
  - exists s. split; [exact Hs|].
    now rewrite (inserted_app _ _ _ Hnodes).
  - apply validate_assert_node.
  - intros Hdt. rewrite validate_tensor_fail by exact Hdt.
    apply inserted_app. cbn. now rewrite app_nil_r.
Qed.

Lemma validate_symbolic_enters_scope_witness :
  accepted_name (Some "check") = true /\
  let w' := snd (validate_group_ndims (PyTensor example_count) (Some "check")
                   empty_world) in
  name_stack w' = name_stack empty_world /\
  op_calls w' = op_calls empty_world /\
  (exists s,
     scope_named (scope_name (Some "check") "validate_group_ndims") s /\
     Forall (fun n => under_scope (name_stack empty_world ++ [s]) n = true)
            (inserted empty_world w')) /\
  (is_integer (dtype_of example_count) = true ->
   exists n, In n (inserted empty_world w') /\ node_type n = "Assert") /\
  (is_integer (dtype_of example_count) = false -> inserted empty_world w' = []).
Proof.
  split; [reflexivity|].
  apply (validate_symbolic_enters_scope example_count (Some "check") empty_world).
  reflexivity.
Defined.
